(** * Offline storage of food entries (src/offlineStorage.ts)

    A shallow embedding of the exported operations of the module,
    [saveFoodEntry], [getFoodEntries] and [syncWithServer], and of the upgrade
    handler of [openDatabase], over an explicit model of what they act on: the
    IndexedDB object store 'foodEntries', the caller's entry objects, the
    network and the console.

    Asynchronous functions are computations in a state-and-rejection monad
    [Async]; a settled promise is a [Settled] value.  What the host decides
    (connectivity, whether IndexedDB requests succeed, what the server answers,
    the clock and the random source) is collected in a read-only [Env]. *)

From Stdlib Require Import ZArith NArith QArith.QArith_base.
From Stdlib Require Import Ascii String Decimal DecimalString DecimalN.
From stdpp Require Import base option list gmap strings.

Local Open Scope Z_scope.

(** ** Data model *)

(** A JavaScript [Date]: a time value in milliseconds since the epoch, or the
    invalid date, whose time value is NaN. *)
Inductive Date : Type :=
  | DateAt (t : Z)
  | InvalidDate.

(** The nutrition fields are numbers the storage layer never computes with. *)
Definition number : Type := Q.

(** [interface FoodEntry]; the two optional members are [option]s. *)
Record FoodEntry : Type := mkFoodEntry {
  id : option string;
  name : string;
  calories : number;
  protein : number;
  carbs : number;
  fat : number;
  date : Date;
  userId : string;
  synced : option bool;
}.

#[global] Instance Date_eq_dec : EqDecision Date.
Proof. solve_decision. Defined.

#[global] Instance number_eq_dec : EqDecision number.
Proof. unfold number. solve_decision. Defined.

#[global] Instance FoodEntry_eq_dec : EqDecision FoodEntry.
Proof. solve_decision. Defined.

(** Assignments [entry.id = v] and [entry.synced = v]. *)
Definition set_id (v : option string) (e : FoodEntry) : FoodEntry :=
  mkFoodEntry v (name e) (calories e) (protein e) (carbs e) (fat e)
              (date e) (userId e) (synced e).

Definition set_synced (v : option bool) (e : FoodEntry) : FoodEntry :=
  mkFoodEntry (id e) (name e) (calories e) (protein e) (carbs e) (fat e)
              (date e) (userId e) v.

(** Two entries agree on every member except [synced]. *)
Definition same_but_synced (a b : FoodEntry) : Prop :=
  id a = id b ∧ name a = name b ∧ calories a = calories b ∧
  protein a = protein b ∧ carbs a = carbs b ∧ fat a = fat b ∧
  date a = date b ∧ userId a = userId b.

(** References to the entry objects that callers own. *)
Definition ref : Type := positive.

(** What [request.onsuccess] of [saveFoodEntry] starts without waiting for
    it: a call of [syncWithServer], or the registration of the background
    sync tag 'foodEntrySync'. *)
Inductive Job : Type :=
  | CallSyncWithServer
  | RegisterBackgroundSync.

(** The mutable world the module acts on. *)
Record World : Type := mkWorld {
  objects : gmap ref FoodEntry;          (* entry objects held by callers *)
  foodEntries : gmap string FoodEntry;   (* object store, keyPath 'id' *)
  requests : list FoodEntry;             (* bodies POSTed to /api/foodEntries *)
  console : list string;                 (* console.error lines *)
  started : list Job;                    (* fire-and-forget follow-ups *)
}.

Definition with_objects (f : gmap ref FoodEntry → gmap ref FoodEntry)
    (w : World) : World :=
  mkWorld (f (objects w)) (foodEntries w) (requests w) (console w) (started w).

Definition with_foodEntries
    (f : gmap string FoodEntry → gmap string FoodEntry) (w : World) : World :=
  mkWorld (objects w) (f (foodEntries w)) (requests w) (console w) (started w).

Definition with_requests (f : list FoodEntry → list FoodEntry)
    (w : World) : World :=
  mkWorld (objects w) (foodEntries w) (f (requests w)) (console w) (started w).

Definition with_console (f : list string → list string) (w : World) : World :=
  mkWorld (objects w) (foodEntries w) (requests w) (f (console w)) (started w).

Definition with_started (f : list Job → list Job) (w : World) : World :=
  mkWorld (objects w) (foodEntries w) (requests w) (console w) (f (started w)).

(** The IndexedDB operations whose failure the source has a path for. *)
Inductive IdbOp : Type :=
  | OpOpen                (* indexedDB.open('eatfitDB', 1) *)
  | OpAdd                 (* store.add(entry) *)
  | OpUserIndexGetAll     (* store.index('userId').getAll(userId) *)
  | OpSyncedIndexGetAll.  (* the request of store.index('synced').getAll *)

(** What [fetch] does with one request: it answers, with [response.ok] true
    or false, or the call throws. *)
Inductive FetchOutcome : Type :=
  | Responds (ok : bool)
  | NetworkError.

#[global] Instance FetchOutcome_eq_dec : EqDecision FetchOutcome.
Proof. solve_decision. Defined.

(** What the host decides. *)
Record Env : Type := mkEnv {
  onLine : bool;                        (* navigator.onLine *)
  idb_ok : IdbOp → bool;                (* does the operation succeed *)
  remote : FoodEntry → FetchOutcome;    (* the server behind /api/foodEntries *)
  now : N;                              (* Date.now() *)
  random36 : string;                    (* Math.random().toString(36) *)
  backgroundSync : bool;                (* 'serviceWorker' in navigator &&
                                           'SyncManager' in window *)
}.

(** ** Keys

    The values that occur where the module hands IndexedDB a key.  Valid keys
    are numbers, dates, strings, binary data and arrays of keys: a string is a
    key, a boolean and [undefined] are not. *)
Inductive JSValue : Type :=
  | JSUndefined
  | JSBoolean (b : bool)
  | JSString (s : string).

#[global] Instance JSValue_eq_dec : EqDecision JSValue.
Proof. solve_decision. Defined.

Definition valid_key (v : JSValue) : bool :=
  match v with
  | JSString _ => true
  | JSBoolean _ | JSUndefined => false
  end.

(** The exception an IndexedDB call throws for a value that is no key,
    rendered by its name. *)
Definition DataError : string := "DataError".

(** ** Promises and async functions *)

(** A settled promise.  A rejection carries its reason, rendered as text. *)
Inductive Settled (A : Type) : Type :=
  | Fulfilled (a : A)
  | Rejected (reason : string).
Arguments Fulfilled {A} a.
Arguments Rejected {A} reason.

(** The outcome of an [IDBRequest]: the event that fires on it. *)
Inductive IDBRequest (A : Type) : Type :=
  | onsuccess (result : A)
  | onerror.
Arguments onsuccess {A} result.
Arguments onerror {A}.

Definition Async (A : Type) : Type := World → Settled A * World.

(** A promise created with [new Promise(executor)] is the computation that
    settles it.  An async function that returns a promise adopts its state
    ([adopt]); only [await] brings a rejection back into a [try] block. *)
Definition Promise (A : Type) : Type := Async A.

Definition resolve {A} (a : A) : Async A := λ w, (Fulfilled a, w).

Definition reject {A} (reason : string) : Async A := λ w, (Rejected reason, w).

Definition await {A B} (k : A → Async B) (m : Async A) : Async B :=
  λ w, match m w with
       | (Fulfilled a, w') => k a w'
       | (Rejected r, w') => (Rejected r, w')
       end.

#[global] Instance Async_ret : MRet Async := @resolve.
#[global] Instance Async_bind : MBind Async := @await.

Definition try_catch {A} (body : Async A) (handler : string → Async A)
    : Async A :=
  λ w, match body w with
       | (Fulfilled a, w') => (Fulfilled a, w')
       | (Rejected r, w') => handler r w'
       end.

Definition adopt {A} (m : Async (Promise A)) : Async A :=
  p ← m; p.

Definition console_error (line : string) : Async unit :=
  λ w, (Fulfilled tt, with_console (λ c, c ++ [line]) w).

Definition start (j : Job) : Async unit :=
  λ w, (Fulfilled tt, with_started (λ js, js ++ [j]) w).

(** [for (const x of xs) body] *)
Fixpoint for_of {A} (xs : list A) (body : A → Async unit) : Async unit :=
  match xs with
  | [] => resolve tt
  | x :: rest => body x;; for_of rest body
  end.

(** ** Text of generated identifiers *)

(** The decimal rendering of a non-negative integer, as a template literal
    prints [Date.now()]. *)
Definition string_of_N (n : N) : string :=
  NilEmpty.string_of_uint (N.to_uint n).

(** [s.substr(start, len)] for non-negative arguments. *)
Definition substr (start len : nat) (s : string) : string :=
  String.substring start len s.

(** ** The operations *)

Section Operations.

Context (env : Env).

(** [openDatabase]: the object store and its three indexes exist once the
    database is open; the handle carries no data of its own. *)
Definition openDatabase : Async unit :=
  if idb_ok env OpOpen then resolve tt
  else reject "Error opening IndexedDB database".

(** Reading and assigning through a reference to a caller's object. *)
Definition deref (r : ref) : Async FoodEntry :=
  λ w, match objects w !! r with
       | Some e => (Fulfilled e, w)
       | None => (Rejected "TypeError", w)
       end.

Definition assign (r : ref) (f : FoodEntry → FoodEntry) : Async unit :=
  λ w, match objects w !! r with
       | Some e => (Fulfilled tt, with_objects (λ h, <[r := f e]> h) w)
       | None => (Rejected "TypeError", w)
       end.

(** [!entry.id]: the member is undefined or the empty string. *)
Definition no_id (e : FoodEntry) : bool :=
  match id e with
  | None => true
  | Some s => bool_decide (s = "")
  end.

(** [`local_${Date.now()}_${Math.random().toString(36).substr(2, 9)}`] *)
Definition generate_id : string :=
  "local_" +:+ string_of_N (now env) +:+ "_" +:+ substr 2 9 (random36 env).

(** [store.add(entry)]: stores a copy of the entry under its [id]; the request
    fails when the key is taken or the engine cannot write, and the call
    throws when the entry has no key. *)
Definition store_add (e : FoodEntry) : Async (IDBRequest unit) :=
  λ w, match id e with
       | None => (Rejected "DataError", w)
       | Some k =>
           if idb_ok env OpAdd && bool_decide (foodEntries w !! k = None)
           then (Fulfilled (onsuccess tt), with_foodEntries (λ s, <[k := e]> s) w)
           else (Fulfilled onerror, w)
       end.

(** [store.put(entry)]: stores a copy of the entry under its [id], replacing
    the record that has this key.  The source does not observe the request. *)
Definition store_put (e : FoodEntry) : Async unit :=
  λ w, match id e with
       | None => (Rejected "DataError", w)
       | Some k => (Fulfilled tt, with_foodEntries (λ s, <[k := e]> s) w)
       end.

(** The records an index yields for one key, here as those that satisfy [P]. *)
Definition index_getAll (P : FoodEntry → Prop) `{∀ e, Decision (P e)}
    (s : gmap string FoodEntry) : list FoodEntry :=
  filter P (snd <$> map_to_list s).

Definition userIndex_getAll (u : string) : Async (IDBRequest (list FoodEntry)) :=
  λ w, if idb_ok env OpUserIndexGetAll
       then (Fulfilled (onsuccess (index_getAll (λ e, userId e = u) (foodEntries w))), w)
       else (Fulfilled onerror, w).

(** What a member of an entry holds, seen as a candidate for a key. *)
Definition synced_member (e : FoodEntry) : JSValue :=
  match synced e with
  | Some b => JSBoolean b
  | None => JSUndefined
  end.

(** [index.getAll(query)] on the index built over [member].  The query is
    first converted to a key and the call throws a DataError when it is none;
    otherwise the request yields the records whose member is that key.  A
    record whose member is no valid key has no entry in the index. *)
Definition index_query (op : IdbOp) (member : FoodEntry → JSValue)
    (query : JSValue) : Async (IDBRequest (list FoodEntry)) :=
  λ w, if negb (valid_key query) then (Rejected DataError, w)
       else if idb_ok env op
       then (Fulfilled (onsuccess (index_getAll (λ e, member e = query)
                                                (foodEntries w))), w)
       else (Fulfilled onerror, w).

(** [syncIndex.getAll(false)]: the query is a boolean. *)
Definition syncIndex_getAll_false : Async (IDBRequest (list FoodEntry)) :=
  index_query OpSyncedIndexGetAll synced_member (JSBoolean false).

(** [entry.id as string] *)
Definition as_string (o : option string) : string := default "" o.

Definition saveFoodEntry (entry : ref) : Async string :=
  adopt (try_catch
    (openDatabase;;
     mret ((* new Promise *)
       e ← deref entry;
       (if no_id e then assign entry (set_id (Some generate_id)) else mret tt);;
       assign entry (set_synced (Some false));;
       e ← deref entry;
       request ← store_add e;
       match request with
       | onsuccess _ =>
           e ← deref entry;
           (if onLine env then start CallSyncWithServer
            else if backgroundSync env then start RegisterBackgroundSync
            else mret tt);;
           resolve (as_string (id e))
       | onerror => reject "Error saving food entry to IndexedDB"
       end))
    (λ error,
       console_error ("Error in saveFoodEntry: " +:+ error);;
       reject error)).

(** [entryDate >= dayStart] and [entryDate < dayEnd]: comparisons of time
    values, false as soon as one of them is NaN. *)
Definition date_ge (a b : Date) : bool :=
  match a, b with
  | DateAt x, DateAt y => bool_decide (y ≤ x)
  | _, _ => false
  end.

Definition date_lt (a b : Date) : bool :=
  match a, b with
  | DateAt x, DateAt y => bool_decide (x < y)
  | _, _ => false
  end.

Definition getFoodEntries (u : string) (dayStart dayEnd : option Date)
    : Async (list FoodEntry) :=
  adopt (try_catch
    (openDatabase;;
     mret ((* new Promise *)
       request ← userIndex_getAll u;
       match request with
       | onsuccess entries =>
           resolve
             match dayStart, dayEnd with
             | Some dayStart, Some dayEnd =>
                 List.filter
                   (λ entry, let entryDate := date entry in
                             date_ge entryDate dayStart && date_lt entryDate dayEnd)
                   entries
             | _, _ => entries
             end
       | onerror => reject "Error retrieving food entries from IndexedDB"
       end))
    (λ error,
       console_error ("Error in getFoodEntries: " +:+ error);;
       mret (mret []))).

(** [fetch('/api/foodEntries', { method: 'POST', body: JSON.stringify(entry) })] *)
Definition fetch (body : FoodEntry) : Async bool :=
  λ w, let w' := with_requests (λ rs, rs ++ [body]) w in
       match remote env body with
       | Responds ok => (Fulfilled ok, w')
       | NetworkError => (Rejected "TypeError: Failed to fetch", w')
       end.

(** The body of the loop of [syncWithServer]: lines 153 to 172. *)
Definition sync_entry (entry : FoodEntry) : Async unit :=
  try_catch
    (response_ok ← fetch entry;
     if (response_ok : bool) then store_put (set_synced (Some true) entry)
     else mret tt)
    (λ error, console_error ("Error syncing entry with server: " +:+ error)).

Definition syncWithServer : Async unit :=
  if negb (onLine env) then mret tt
  else
    try_catch
      (openDatabase;;
       unsyncedEntries ← ((* await new Promise *)
         request ← syncIndex_getAll_false;
         match request with
         | onsuccess result => resolve result
         | onerror => reject "Error getting unsynced entries"
         end);
       for_of unsyncedEntries sync_entry;;
       mret tt)
      (λ error, console_error ("Error in syncWithServer: " +:+ error)).

End Operations.

(** ** The store and its indexes *)

(** Every record sits under the key its [id] member holds: the key of a stored
    record is extracted from the record at keyPath 'id'. *)
Definition store_wf (s : gmap string FoodEntry) : Prop :=
  map_Forall (λ k r, id r = Some k) s.

#[global] Instance store_wf_dec s : Decision (store_wf s).
Proof. unfold store_wf. apply _. Defined.

(** The unsynced set: a record of the store whose [synced] is false. *)
Definition stored_unsynced (s : gmap string FoodEntry) (e : FoodEntry) : Prop :=
  synced e = Some false ∧ ∃ k, s !! k = Some e.

(** What one run of the loop body of [syncWithServer] does to the store. *)
Definition pushed_store (env : Env) (s : gmap string FoodEntry) (e : FoodEntry)
    : gmap string FoodEntry :=
  match remote env e, id e with
  | Responds true, Some k => <[k := set_synced (Some true) e]> s
  | _, _ => s
  end.

(** The requests sent between two worlds. *)
Definition pushed_between (w w' : World) : list FoodEntry :=
  drop (length (requests w)) (requests w').

(** The caller's object after lines 51 to 56 of [saveFoodEntry]: an [id] is
    generated when there is none, then [synced] is set to false. *)
Definition prepared (env : Env) (e : FoodEntry) : FoodEntry :=
  set_synced (Some false)
    (if no_id e then set_id (Some (generate_id env)) e else e).

(** What [request.onsuccess] of [saveFoodEntry] starts. *)
Definition follow_up (env : Env) : list Job :=
  if onLine env then [CallSyncWithServer]
  else if backgroundSync env then [RegisterBackgroundSync]
  else [].

(** The steps the module takes on the world: the three operations, under
    whatever the host decides at the time, and one run of the loop body of a
    sync pass. *)
Inductive engine_step : World → World → Prop :=
  | step_insert env entry w : engine_step w (saveFoodEntry env entry w).2
  | step_query env u a b w : engine_step w (getFoodEntries env u a b w).2
  | step_push env e w : engine_step w (sync_entry env e w).2
  | step_sync env w : engine_step w (syncWithServer env w).2.

(** ** The shape of a generated identifier *)

Definition is_digit (c : ascii) : bool :=
  let n := nat_of_ascii c in (48 <=? n)%nat && (n <=? 57)%nat.

Definition is_lower (c : ascii) : bool :=
  let n := nat_of_ascii c in (97 <=? n)%nat && (n <=? 122)%nat.

Definition is_upper (c : ascii) : bool :=
  let n := nat_of_ascii c in (65 <=? n)%nat && (n <=? 90)%nat.

Definition is_alnum (c : ascii) : bool := is_digit c || is_lower c || is_upper c.

(** The digits of radix 36, as [toString(36)] writes them. *)
Definition is_base36 (c : ascii) : bool := is_digit c || is_lower c.

Fixpoint all_chars (p : ascii → bool) (s : string) : bool :=
  match s with
  | EmptyString => true
  | String c rest => p c && all_chars p rest
  end.

(** The pattern [local_<digits>_<alnum>]: at least one digit and at least one
    alphanumeric character. *)
Definition local_id_pattern (s : string) : Prop :=
  ∃ digits suffix,
    s = "local_" +:+ digits +:+ "_" +:+ suffix ∧
    digits ≠ "" ∧ all_chars is_digit digits = true ∧
    suffix ≠ "" ∧ all_chars is_alnum suffix = true.

(** What [toString(36)] prints for a number of the interval from 0 to 1, 1
    excluded: "0" for zero, and otherwise "0." and a fraction in radix 36. *)
Definition base36_rendering (s : string) : bool :=
  match s with
  | String "0"%char EmptyString => true
  | String "0"%char (String "."%char (String c rest)) =>
      all_chars is_base36 (String c rest)
  | _ => false
  end.

(** ** Date ranges *)

(** The half-open range of the query: [a <= d < b] on valid time values. *)
Definition within (a b d : Date) : Prop :=
  match a, b, d with
  | DateAt ta, DateAt tb, DateAt t => ta ≤ t < tb
  | _, _, _ => False
  end.

(** The records of one owner in a store. *)
Definition owned_by (u : string) (s : gmap string FoodEntry) (r : FoodEntry)
    : Prop :=
  userId r = u ∧ ∃ k, s !! k = Some r.

(** ** Sample data

    A caller's entry without an id that asks for [synced: true], a store of
    four records of two owners, and hosts that differ in one respect each. *)

Definition apple : FoodEntry :=
  mkFoodEntry None "Apple" (95 # 1) (1 # 2) (25 # 1) (3 # 10)
              (DateAt 1730000000000) "u1" (Some true).

Definition rec_a : FoodEntry :=
  mkFoodEntry (Some "a") "Apple" (95 # 1) (1 # 2) (25 # 1) (3 # 10)
              (DateAt 1000) "u1" (Some false).

Definition rec_b : FoodEntry :=
  mkFoodEntry (Some "b") "Bread" (265 # 1) (9 # 1) (49 # 1) (16 # 5)
              (DateAt 2000) "u1" (Some false).

Definition rec_c : FoodEntry :=
  mkFoodEntry (Some "c") "Cocoa" (228 # 1) (20 # 1) (58 # 1) (14 # 1)
              (DateAt 1500) "u2" (Some false).

Definition rec_d : FoodEntry :=
  mkFoodEntry (Some "d") "Dates" (277 # 1) (9 # 5) (75 # 1) (3 # 20)
              (DateAt 3000) "u1" (Some true).

Definition sample_store : gmap string FoodEntry :=
  <["a" := rec_a]> (<["b" := rec_b]> (<["c" := rec_c]> (<["d" := rec_d]> ∅))).

Definition sample_world : World :=
  mkWorld {[ 1%positive := apple ]} sample_store [] [] [].

(** Online, every IndexedDB operation served, every push accepted. *)
Definition host_ok : Env :=
  mkEnv true (λ _, true) (λ _, Responds true) 1730000000000%N "0.4fzyo82mvyr" false.

(** As [host_ok], but the server refuses the record with id "b". *)
Definition host_refusing_b : Env :=
  mkEnv true (λ _, true)
        (λ e, if bool_decide (id e = Some "b") then Responds false
              else Responds true)
        1730000000000%N "0.4fzyo82mvyr" false.

(** As [host_ok], but the random draw is zero. *)
Definition host_zero_draw : Env :=
  mkEnv true (λ _, true) (λ _, Responds true) 1730000000000%N "0" false.

(** What a scan of the sample store for its unsynced records would list. *)
Definition sample_scan : list FoodEntry := [rec_c; rec_a; rec_b].

(** As [host_ok], but offline. *)
Definition host_offline : Env :=
  mkEnv false (λ _, true) (λ _, Responds true) 1730000000000%N "0.4fzyo82mvyr" true.

(** As [host_ok], but the lookup in the 'userId' index fails. *)
Definition host_read_error : Env :=
  mkEnv true (λ op, match op with OpUserIndexGetAll => false | _ => true end)
        (λ _, Responds true) 1730000000000%N "0.4fzyo82mvyr" false.

(** As [host_ok], but the add request fails. *)
Definition host_write_error : Env :=
  mkEnv true (λ op, match op with OpAdd => false | _ => true end)
        (λ _, Responds true) 1730000000000%N "0.4fzyo82mvyr" false.

(** ** The schema of the database

    What [request.onupgradeneeded] of [openDatabase] works on: the object
    stores of the database, each with its key path and its indexes. *)

Record IDBIndex : Type := mkIDBIndex {
  indexName : string;
  indexKeyPath : string;
  unique : bool;
}.

Record IDBObjectStore : Type := mkIDBObjectStore {
  keyPath : string;
  indexes : list IDBIndex;
}.

(** [db.createObjectStore('foodEntries', { keyPath: 'id' })] followed by the
    three calls of [store.createIndex]. *)
Definition foodEntries_schema : IDBObjectStore :=
  mkIDBObjectStore "id"
    [mkIDBIndex "userId" "userId" false;
     mkIDBIndex "date" "date" false;
     mkIDBIndex "synced" "synced" false].

(** The handler of [onupgradeneeded]: lines 20 to 30. *)
Definition onupgradeneeded (db : gmap string IDBObjectStore)
    : gmap string IDBObjectStore :=
  if negb (bool_decide ("foodEntries" ∈ dom db))
  then <["foodEntries" := foodEntries_schema]> db
  else db.

(** ** More hosts *)

(** As [host_ok], but every call of [fetch] throws. *)
Definition host_network_down : Env :=
  mkEnv true (λ _, true) (λ _, NetworkError) 1730000000000%N "0.4fzyo82mvyr" false.

(** As [host_ok], but the database does not open. *)
Definition host_no_database : Env :=
  mkEnv true (λ op, match op with OpOpen => false | _ => true end)
        (λ _, Responds true) 1730000000000%N "0.4fzyo82mvyr" false.

(** Offline and without the background sync capability. *)
Definition host_offline_plain : Env :=
  mkEnv false (λ _, true) (λ _, Responds true) 1730000000000%N "0.4fzyo82mvyr" false.

(** As [host_ok], one millisecond later and with another random draw. *)
Definition host_later : Env :=
  mkEnv true (λ _, true) (λ _, Responds true) 1730000000001%N "0.i" false.

(** A caller's entry that brings its own id, and one whose id is empty. *)
Definition pear : FoodEntry :=
  mkFoodEntry (Some "srv-42") "Pear" (57 # 1) (2 # 5) (15 # 1) (1 # 10)
              (DateAt 2500) "u1" None.

Definition plum : FoodEntry :=
  mkFoodEntry (Some "") "Plum" (46 # 1) (7 # 10) (11 # 1) (3 # 10)
              (DateAt 2600) "u2" (Some true).

(** A caller's entry whose id is the key of a stored record. *)
Definition fig : FoodEntry :=
  mkFoodEntry (Some "a") "Fig" (74 # 1) (3 # 4) (19 # 1) (3 # 10)
              (DateAt 2700) "u1" None.

Definition caller_world : World :=
  mkWorld (<[4%positive := fig]>
             (<[3%positive := plum]>
                (<[2%positive := pear]> {[ 1%positive := apple ]})))
          sample_store [] [] [].

(** ** Running async code *)

Lemma await_fulfilled {A B} (m : Async A) (k : A → Async B) w a w' :
  m w = (Fulfilled a, w') → (m ≫= k) w = k a w'.
Proof. intros Hm. unfold mbind, Async_bind, await. by rewrite Hm. Qed.

Lemma await_rejected {A B} (m : Async A) (k : A → Async B) w r w' :
  m w = (Rejected r, w') → (m ≫= k) w = (Rejected r, w').
Proof. intros Hm. unfold mbind, Async_bind, await. by rewrite Hm. Qed.

Lemma try_catch_fulfilled {A} (body : Async A) handler w a w' :
  body w = (Fulfilled a, w') → try_catch body handler w = (Fulfilled a, w').
Proof. intros Hm. unfold try_catch. by rewrite Hm. Qed.

Lemma try_catch_rejected {A} (body : Async A) handler w r w' :
  body w = (Rejected r, w') → try_catch body handler w = handler r w'.
Proof. intros Hm. unfold try_catch. by rewrite Hm. Qed.

Lemma adopt_run {A} (m : Async (Promise A)) w p w' :
  m w = (Fulfilled p, w') → adopt m w = p w'.
Proof. apply await_fulfilled. Qed.

Lemma adopt_rejected {A} (m : Async (Promise A)) w r w' :
  m w = (Rejected r, w') → adopt m w = (Rejected r, w').
Proof. apply await_rejected. Qed.

Lemma deref_run r e w : objects w !! r = Some e → deref r w = (Fulfilled e, w).
Proof. intros Hr. unfold deref. by rewrite Hr. Qed.

Lemma assign_run r f e w :
  objects w !! r = Some e →
  assign r f w = (Fulfilled tt, with_objects (λ h, <[r := f e]> h) w).
Proof. intros Hr. unfold assign. by rewrite Hr. Qed.

Lemma openDatabase_ok env w :
  idb_ok env OpOpen = true → openDatabase env w = (Fulfilled tt, w).
Proof. intros Hopen. unfold openDatabase. by rewrite Hopen. Qed.

Lemma openDatabase_fails env w :
  idb_ok env OpOpen = false →
  openDatabase env w = (Rejected "Error opening IndexedDB database", w).
Proof. intros Hopen. unfold openDatabase. by rewrite Hopen. Qed.

Lemma elem_of_index_getAll (P : FoodEntry → Prop) `{∀ e, Decision (P e)}
    (s : gmap string FoodEntry) (e : FoodEntry) :
  e ∈ index_getAll P s ↔ P e ∧ ∃ k, s !! k = Some e.
Proof.
  unfold index_getAll.
  rewrite list_elem_of_filter, list_elem_of_fmap.
  split.
  - intros [HP [[k r] [-> Hin]]]. split; [done|].
    exists k. by apply elem_of_map_to_list.
  - intros [HP [k Hk]]. split; [done|].
    exists (k, e). split; [done|]. by apply elem_of_map_to_list.
Qed.

Lemma store_wf_empty : store_wf ∅.
Proof. intros k r Hk. by rewrite lookup_empty in Hk. Qed.

Lemma store_wf_insert s k e :
  store_wf s → id e = Some k → store_wf (<[k := e]> s).
Proof. intros Hwf Hid. by apply map_Forall_insert_2. Qed.

(** In a well-formed store a key is held by one record. *)
Lemma stored_key_functional s e e' k :
  store_wf s → (∃ k1, s !! k1 = Some e) → (∃ k2, s !! k2 = Some e') →
  id e = Some k → id e' = Some k → e' = e.
Proof.
  intros Hwf [k1 H1] [k2 H2] He He'.
  pose proof (Hwf _ _ H1) as E1. pose proof (Hwf _ _ H2) as E2.
  simpl in *. congruence.
Qed.

(** *** One run of the loop body *)

Section SyncEntry.

Context (env : Env).

Lemma sync_entry_run e w :
  ∃ c, sync_entry env e w =
       (Fulfilled tt,
        mkWorld (objects w) (pushed_store env (foodEntries w) e)
                (requests w ++ [e]) c (started w)).
Proof.
  unfold sync_entry, try_catch, pushed_store, fetch, store_put.
  unfold mbind, Async_bind, await, mret, Async_ret, resolve, console_error.
  destruct (remote env e) as [[|]|]; simpl.
  - destruct (id e); simpl; eauto.
  - eauto.
  - eauto.
Qed.

Lemma for_of_sync_entry_run l w :
  ∃ c, for_of l (sync_entry env) w =
       (Fulfilled tt,
        mkWorld (objects w) (foldl (pushed_store env) (foodEntries w) l)
                (requests w ++ l) c (started w)).
Proof.
  revert w. induction l as [|e l IH]; intros w.
  - simpl. unfold resolve. rewrite app_nil_r. exists (console w). by destruct w.
  - simpl. unfold mbind, Async_bind, await.
    destruct (sync_entry_run e w) as [c ->].
    destruct (IH (mkWorld (objects w) (pushed_store env (foodEntries w) e)
                          (requests w ++ [e]) c (started w))) as [c' ->].
    simpl. rewrite <- app_assoc. simpl. eauto.
Qed.

(** *** The store after the loop *)

Lemma pushed_store_lookup_ne s e k :
  id e ≠ Some k → pushed_store env s e !! k = s !! k.
Proof.
  intros Hne. unfold pushed_store.
  destruct (remote env e) as [[|]|]; try done.
  destruct (id e) as [k'|]; try done.
  rewrite lookup_insert_ne; [done | congruence].
Qed.

Lemma pushed_store_lookup_refused s e k :
  remote env e ≠ Responds true → pushed_store env s e !! k = s !! k.
Proof.
  intros Hne. unfold pushed_store.
  destruct (remote env e) as [[|]|]; done.
Qed.

Lemma pushed_store_lookup_accepted s e k :
  remote env e = Responds true → id e = Some k →
  pushed_store env s e !! k = Some (set_synced (Some true) e).
Proof.
  intros Hok Hid. unfold pushed_store. rewrite Hok, Hid.
  apply lookup_insert_eq.
Qed.

(** A key that no accepted entry of the list carries keeps its record. *)
Lemma foldl_pushed_store_frame l s k :
  (∀ e, e ∈ l → id e = Some k → remote env e ≠ Responds true) →
  foldl (pushed_store env) s l !! k = s !! k.
Proof.
  revert s. induction l as [|a l IH]; intros s Hl; [done|].
  simpl. rewrite IH.
  - destruct (decide (id a = Some k)) as [Ha|Ha].
    + apply pushed_store_lookup_refused. apply Hl; [left | done].
    + by apply pushed_store_lookup_ne.
  - intros e He. apply Hl. by right.
Qed.

Lemma foldl_pushed_store_keep l s k e :
  id e = Some k →
  (∀ e', e' ∈ l → id e' = Some k → e' = e) →
  s !! k = Some (set_synced (Some true) e) →
  foldl (pushed_store env) s l !! k = Some (set_synced (Some true) e).
Proof.
  intros Hid. revert s. induction l as [|a l IH]; intros s Hl Hs; [done|].
  simpl. apply IH.
  - intros e' He'. apply Hl. by right.
  - destruct (decide (id a = Some k)) as [Ha|Ha].
    + assert (a = e) as -> by (apply Hl; [left | done]).
      destruct (decide (remote env e = Responds true)) as [Hok|Hno].
      * by apply pushed_store_lookup_accepted.
      * by rewrite pushed_store_lookup_refused.
    + by rewrite pushed_store_lookup_ne.
Qed.

(** An accepted entry of the list ends up stored with its flag raised. *)
Lemma foldl_pushed_store_hit l s k e :
  e ∈ l → id e = Some k → remote env e = Responds true →
  (∀ e', e' ∈ l → id e' = Some k → e' = e) →
  foldl (pushed_store env) s l !! k = Some (set_synced (Some true) e).
Proof.
  intros Hin Hid Hok. revert s.
  induction l as [|a l IH]; intros s Hl; [by apply elem_of_nil in Hin|].
  simpl. destruct (decide (a = e)) as [->|Hne].
  - apply foldl_pushed_store_keep; [done | |].
    + intros e' He'. apply Hl. by right.
    + by apply pushed_store_lookup_accepted.
  - apply IH.
    + apply elem_of_cons in Hin as [->|Hin]; done.
    + intros e' He'. apply Hl. by right.
Qed.

(** A raised flag stays raised, whatever the list holds. *)
Lemma pushed_store_raised s a k r :
  s !! k = Some r → synced r = Some true →
  ∃ r', pushed_store env s a !! k = Some r' ∧ synced r' = Some true.
Proof.
  intros Hs Hr. unfold pushed_store.
  destruct (remote env a) as [[|]|]; eauto.
  destruct (id a) as [k'|]; eauto.
  rewrite lookup_insert. case_decide; eauto.
Qed.

Lemma foldl_pushed_store_raised l s k r :
  s !! k = Some r → synced r = Some true →
  ∃ r', foldl (pushed_store env) s l !! k = Some r' ∧ synced r' = Some true.
Proof.
  revert s r. induction l as [|a l IH]; intros s r Hs Hr; [eauto|].
  simpl. destruct (pushed_store_raised s a k r Hs Hr) as (r' & Hs' & Hr').
  by eapply IH.
Qed.

End SyncEntry.

(** *** The loop over a scanned list *)

Section SyncLoop.

Context (env : Env).

Lemma set_synced_same e v : same_but_synced e (set_synced v e).
Proof. by repeat split. Qed.

(** The entries of a list of stored records, by key, in a well-keyed store. *)
Lemma scanned_key_functional s (scanned : list FoodEntry) e k :
  store_wf s → (∀ x, x ∈ scanned → ∃ k', s !! k' = Some x) →
  e ∈ scanned → id e = Some k →
  ∀ e', e' ∈ scanned → id e' = Some k → e' = e.
Proof.
  intros Hwf Hstored He Hid e' He' Hid'.
  eapply stored_key_functional; eauto.
Qed.


End SyncLoop.

(** *** A whole sync pass *)

Section SyncPass.

Context (env : Env).

Lemma syncWithServer_offline_run w :
  onLine env = false → syncWithServer env w = (Fulfilled tt, w).
Proof. intros Hoff. unfold syncWithServer. by rewrite Hoff. Qed.

(** [false] is no key: the lookup throws before a request exists. *)
Lemma syncIndex_getAll_false_throws w :
  syncIndex_getAll_false env w = (Rejected DataError, w).
Proof. reflexivity. Qed.

Lemma syncWithServer_open_failure_run w :
  onLine env = true → idb_ok env OpOpen = false →
  syncWithServer env w =
    (Fulfilled tt,
     with_console
       (λ c, c ++ ["Error in syncWithServer: Error opening IndexedDB database"]) w).
Proof.
  intros Hon Hopen. unfold syncWithServer. rewrite Hon. simpl.
  erewrite try_catch_rejected; [reflexivity|].
  by erewrite await_rejected by by apply openDatabase_fails.
Qed.

(** With the database open the pass ends in the outer [catch], on the
    exception of the lookup. *)
Lemma syncWithServer_scan_throws_run w :
  onLine env = true → idb_ok env OpOpen = true →
  syncWithServer env w =
    (Fulfilled tt,
     with_console (λ c, c ++ ["Error in syncWithServer: " +:+ DataError]) w).
Proof.
  intros Hon Hopen. unfold syncWithServer. rewrite Hon. simpl.
  erewrite try_catch_rejected; [reflexivity|].
  erewrite await_fulfilled by by apply openDatabase_ok.
  erewrite await_rejected; [reflexivity|].
  erewrite await_rejected; [reflexivity|].
  apply syncIndex_getAll_false_throws.
Qed.

(** The three ways a pass ends: it returns at once, or it logs one line. *)
Lemma syncWithServer_cases w :
  syncWithServer env w = (Fulfilled tt, w) ∨
  ∃ line, syncWithServer env w =
          (Fulfilled tt, with_console (λ c, c ++ [line]) w).
Proof.
  destruct (onLine env) eqn:Hon.
  - right. destruct (idb_ok env OpOpen) eqn:Hopen.
    + eexists. by apply syncWithServer_scan_throws_run.
    + eexists. by apply syncWithServer_open_failure_run.
  - left. by apply syncWithServer_offline_run.
Qed.

(** A sync pass never rejects. *)
Lemma syncWithServer_fulfilled w : (syncWithServer env w).1 = Fulfilled tt.
Proof. by destruct (syncWithServer_cases w) as [->|[line ->]]. Qed.

(** A sync pass writes to the console and to nothing else. *)
Lemma syncWithServer_frame w :
  foodEntries (syncWithServer env w).2 = foodEntries w ∧
  requests (syncWithServer env w).2 = requests w ∧
  objects (syncWithServer env w).2 = objects w ∧
  started (syncWithServer env w).2 = started w.
Proof. by destruct (syncWithServer_cases w) as [->|[line ->]]. Qed.

End SyncPass.



(** C6.  Without connectivity a sync pass sends no request and returns the
    world it was given: the store, and with it every flag and every other
    member of every record, is the same. *)
Theorem syncWithServer_offline_noop env w :
  onLine env = false →
  pushed_between w (syncWithServer env w).2 = [] ∧
  requests (syncWithServer env w).2 = requests w ∧
  foodEntries (syncWithServer env w).2 = foodEntries w ∧
  syncWithServer env w = (Fulfilled tt, w).
Proof.
  intros Hoff. rewrite syncWithServer_offline_run by done.
  unfold pushed_between. simpl. by rewrite drop_all.
Qed.

(** ** Insertion *)

Section Insert.

Context (env : Env).

Lemma prepared_synced e : synced (prepared env e) = Some false.
Proof. done. Qed.

Lemma prepared_id e :
  id (prepared env e) = if no_id e then Some (generate_id env) else id e.
Proof. unfold prepared. by destruct (no_id e). Qed.

Lemma prepared_key e : id (prepared env e) = Some (as_string (id (prepared env e))).
Proof.
  rewrite prepared_id. unfold no_id. destruct (id e) as [s|]; [|done].
  by case_bool_decide.
Qed.

Lemma prepared_payload e :
  name (prepared env e) = name e ∧ calories (prepared env e) = calories e ∧
  protein (prepared env e) = protein e ∧ carbs (prepared env e) = carbs e ∧
  fat (prepared env e) = fat e ∧ date (prepared env e) = date e ∧
  userId (prepared env e) = userId e.
Proof. unfold prepared. by destruct (no_id e). Qed.

(** The two assignments of lines 51 to 56 leave [prepared] in the caller's
    object. *)
Lemma assignments_run {A} entry e w (rest : Async A) :
  objects w !! entry = Some e →
  ((if no_id e then assign entry (set_id (Some (generate_id env))) else mret tt);;
   assign entry (set_synced (Some false));; rest) w =
  rest (with_objects (λ h, <[entry := prepared env e]> h) w).
Proof.
  intros Hobj. unfold prepared. destruct (no_id e).
  - erewrite await_fulfilled by by apply assign_run.
    erewrite await_fulfilled by (apply assign_run; apply lookup_insert_eq).
    unfold with_objects. simpl. by rewrite insert_insert_eq.
  - erewrite await_fulfilled by reflexivity.
    by erewrite await_fulfilled by by apply assign_run.
Qed.

Lemma store_add_ok e k w :
  id e = Some k →
  idb_ok env OpAdd && bool_decide (foodEntries w !! k = None) = true →
  store_add env e w =
    (Fulfilled (onsuccess tt), with_foodEntries (λ s, <[k := e]> s) w).
Proof. intros Hid Hok. unfold store_add. by rewrite Hid, Hok. Qed.

Lemma store_add_error e k w :
  id e = Some k →
  idb_ok env OpAdd && bool_decide (foodEntries w !! k = None) = false →
  store_add env e w = (Fulfilled onerror, w).
Proof. intros Hid Hok. unfold store_add. by rewrite Hid, Hok. Qed.

Lemma follow_up_run {A} (rest : Async A) w :
  ((if onLine env then start CallSyncWithServer
    else if backgroundSync env then start RegisterBackgroundSync
    else mret tt);; rest) w =
  rest (with_started (λ js, js ++ follow_up env) w).
Proof.
  unfold follow_up.
  destruct (onLine env); [|destruct (backgroundSync env)];
    erewrite await_fulfilled by reflexivity; try done.
  unfold with_started. rewrite app_nil_r. by destruct w.
Qed.

(** With the database open, [saveFoodEntry] first rewrites the caller's
    object and then settles on the outcome of the add request. *)
Lemma saveFoodEntry_run entry e w :
  objects w !! entry = Some e → idb_ok env OpOpen = true →
  let p := prepared env e in
  let k := as_string (id p) in
  saveFoodEntry env entry w =
    if idb_ok env OpAdd && bool_decide (foodEntries w !! k = None)
    then (Fulfilled k,
          mkWorld (<[entry := p]> (objects w)) (<[k := p]> (foodEntries w))
                  (requests w) (console w) (started w ++ follow_up env))
    else (Rejected "Error saving food entry to IndexedDB",
          mkWorld (<[entry := p]> (objects w)) (foodEntries w)
                  (requests w) (console w) (started w)).
Proof.
  intros Hobj Hopen p k. unfold saveFoodEntry.
  erewrite adopt_run; cycle 1.
  { apply try_catch_fulfilled.
    erewrite await_fulfilled by by apply openDatabase_ok. reflexivity. }
  erewrite await_fulfilled by by apply deref_run.
  rewrite (assignments_run entry e w _ Hobj).
  erewrite await_fulfilled by (apply deref_run; apply lookup_insert_eq).
  fold p k.
  destruct (idb_ok env OpAdd && bool_decide (foodEntries w !! k = None)) eqn:Hadd.
  - erewrite await_fulfilled by (by eapply store_add_ok; [apply prepared_key|]).
    cbv iota.
    erewrite await_fulfilled by (apply deref_run; apply lookup_insert_eq).
    by rewrite follow_up_run.
  - by erewrite await_fulfilled
      by (by eapply store_add_error; [apply prepared_key|]).
Qed.

(** When the database does not open, the executor never runs. *)
Lemma saveFoodEntry_open_failure entry w :
  idb_ok env OpOpen = false →
  saveFoodEntry env entry w =
    (Rejected "Error opening IndexedDB database",
     with_console
       (λ c, c ++ ["Error in saveFoodEntry: Error opening IndexedDB database"]) w).
Proof.
  intros Hopen. unfold saveFoodEntry.
  erewrite adopt_rejected; [done|].
  erewrite try_catch_rejected; cycle 1.
  { erewrite await_rejected by by apply openDatabase_fails. reflexivity. }
  reflexivity.
Qed.

(** A caller without an object to pass does not reach the store. *)
Lemma saveFoodEntry_dangling entry w :
  objects w !! entry = None → idb_ok env OpOpen = true →
  saveFoodEntry env entry w = (Rejected "TypeError", w).
Proof.
  intros Hobj Hopen. unfold saveFoodEntry.
  erewrite adopt_run; cycle 1.
  { apply try_catch_fulfilled.
    erewrite await_fulfilled by by apply openDatabase_ok. reflexivity. }
  erewrite await_rejected; [done|]. unfold deref. by rewrite Hobj.
Qed.

(** [add] never replaces a record. *)
Lemma saveFoodEntry_keeps entry w k r :
  foodEntries w !! k = Some r →
  foodEntries (saveFoodEntry env entry w).2 !! k = Some r.
Proof.
  intros Hk. destruct (idb_ok env OpOpen) eqn:Hopen.
  - destruct (objects w !! entry) as [e|] eqn:Hobj.
    + rewrite (saveFoodEntry_run entry e w Hobj Hopen).
      destruct (idb_ok env OpAdd); simpl; [|done].
      case_bool_decide as Hfree; simpl; [|done].
      rewrite lookup_insert_ne; [done | congruence].
    + by rewrite saveFoodEntry_dangling.
  - by rewrite saveFoodEntry_open_failure.
Qed.

End Insert.

(** ** Generated identifiers *)

Lemma string_of_uint_digits u :
  all_chars is_digit (NilEmpty.string_of_uint u) = true.
Proof. induction u; simpl; try done. Qed.

Lemma string_of_N_digits n : all_chars is_digit (string_of_N n) = true.
Proof. apply string_of_uint_digits. Qed.

Lemma string_of_N_nonempty n : string_of_N n ≠ "".
Proof.
  unfold string_of_N. destruct (N.to_uint n) eqn:Hu; try done.
  pose proof (Unsigned.of_to n) as Hn. rewrite Hu in Hn. simpl in Hn.
  subst n. done.
Qed.

Lemma all_chars_weaken (p q : ascii → bool) s :
  (∀ c, p c = true → q c = true) →
  all_chars p s = true → all_chars q s = true.
Proof.
  intros Hpq. induction s as [|c s IH]; [done|]. simpl.
  intros [Hc Hs]%andb_true_iff. rewrite (Hpq c Hc). by apply IH.
Qed.

Lemma all_chars_substring p a b s :
  all_chars p s = true → all_chars p (String.substring a b s) = true.
Proof.
  revert a b. induction s as [|c s IH]; intros a b Hs.
  - by destruct a, b.
  - simpl in Hs. apply andb_true_iff in Hs as [Hc Hs].
    destruct a as [|a]; [destruct b as [|b]|]; simpl; try done.
    + rewrite Hc. by apply IH.
    + by apply IH.
Qed.

Lemma length_substring_le a b s :
  (String.length (String.substring a b s) ≤ b)%nat.
Proof.
  revert a b. induction s as [|c s IH]; intros a b.
  - destruct a, b; simpl; lia.
  - destruct a as [|a]; [destruct b as [|b]|]; simpl; try lia.
    + specialize (IH 0%nat b). lia.
    + apply IH.
Qed.

Lemma is_base36_alnum c : is_base36 c = true → is_alnum c = true.
Proof. unfold is_base36, is_alnum. intros ->. done. Qed.

(** The two shapes of a rendering. *)
Lemma base36_rendering_inv s :
  base36_rendering s = true →
  s = "0" ∨
  ∃ c rest, s = String "0" (String "." (String c rest)) ∧
            all_chars is_base36 (String c rest) = true.
Proof.
  destruct s as [|c0 s]; [done|].
  destruct (Ascii.ascii_dec c0 "0"%char) as [->|Hc0]; cycle 1.
  { intros Hs. exfalso. apply Hc0. clear Hc0.
    destruct c0 as [[] [] [] [] [] [] [] []]; simpl in Hs; try discriminate Hs.
    reflexivity. }
  destruct s as [|c1 s]; [by left|].
  destruct (Ascii.ascii_dec c1 "."%char) as [->|Hc1]; cycle 1.
  { intros Hs. exfalso. apply Hc1. clear Hc1.
    destruct c1 as [[] [] [] [] [] [] [] []]; simpl in Hs; try discriminate Hs.
    reflexivity. }
  destruct s as [|c rest]; [done|].
  intros Hs. right. by exists c, rest.
Qed.

(** The random part of a generated identifier: what follows "0." in the
    rendering of the draw, cut after nine characters. *)
Lemma random_suffix_shape s :
  base36_rendering s = true →
  all_chars is_base36 (substr 2 9 s) = true ∧
  (String.length (substr 2 9 s) ≤ 9)%nat ∧
  (s = "0" ↔ substr 2 9 s = "") ∧
  (∀ frac, s = "0." +:+ frac → substr 2 9 s = substr 0 9 frac).
Proof.
  intros Hs. split; [|split; [apply length_substring_le|split]].
  - destruct (base36_rendering_inv s Hs) as [->|(c & rest & -> & Hfrac)]; [done|].
    unfold substr.
    change (String.substring 2 9 (String "0" (String "." (String c rest))))
      with (String.substring 0 9 (String c rest)).
    by apply all_chars_substring.
  - destruct (base36_rendering_inv s Hs) as [->|(c & rest & -> & Hfrac)]; done.
  - by intros frac ->.
Qed.

Lemma generate_id_pattern env :
  base36_rendering (random36 env) = true → random36 env ≠ "0" →
  local_id_pattern (generate_id env).
Proof.
  intros Hr Hdraw.
  destruct (random_suffix_shape _ Hr) as (Hchars & _ & Hempty & _).
  exists (string_of_N (now env)), (substr 2 9 (random36 env)).
  split; [done|]. split; [apply string_of_N_nonempty|].
  split; [apply string_of_N_digits|]. split.
  - intros Hnone. by apply Hdraw, Hempty.
  - by apply (all_chars_weaken is_base36); [apply is_base36_alnum|].
Qed.

Lemma string_of_N_inj n m : string_of_N n = string_of_N m → n = m.
Proof.
  unfold string_of_N. intros Heq.
  assert (N.to_uint n = N.to_uint m) as Hu.
  { apply (f_equal NilEmpty.uint_of_string) in Heq.
    rewrite !NilEmpty.usu in Heq. congruence. }
  rewrite <- (Unsigned.of_to n), <- (Unsigned.of_to m). by rewrite Hu.
Qed.

(** A run of digits that ends at an underscore is read back in one way. *)
Lemma digits_delimited d1 d2 s1 s2 :
  all_chars is_digit d1 = true → all_chars is_digit d2 = true →
  d1 +:+ String "_" s1 = d2 +:+ String "_" s2 → d1 = d2 ∧ s1 = s2.
Proof.
  revert d2. induction d1 as [|c1 d1 IH]; intros [|c2 d2] H1 H2 Heq; simpl in *.
  - by injection Heq as ->.
  - injection Heq as <- _. done.
  - injection Heq as -> _. done.
  - injection Heq as -> Heq.
    apply andb_true_iff in H1 as [_ H1]. apply andb_true_iff in H2 as [_ H2].
    destruct (IH d2 H1 H2 Heq) as [-> ->]. done.
Qed.


(** C3.  Whatever [synced] value the caller's entry carries, when
    [saveFoodEntry] is fulfilled with an id the store holds under that id the
    prepared entry, whose [synced] is false; and it is fulfilled whenever the
    database opens, the add request is served and the key is free. *)
Theorem saveFoodEntry_persists_unsynced env entry e w :
  objects w !! entry = Some e →
  (∀ k, (saveFoodEntry env entry w).1 = Fulfilled k →
        ∃ p, foodEntries (saveFoodEntry env entry w).2 !! k = Some p ∧
             synced p = Some false ∧ p = prepared env e) ∧
  (idb_ok env OpOpen = true → idb_ok env OpAdd = true →
   foodEntries w !! as_string (id (prepared env e)) = None →
   (saveFoodEntry env entry w).1 = Fulfilled (as_string (id (prepared env e)))).
Proof.
  intros Hobj. split.
  - intros k. destruct (idb_ok env OpOpen) eqn:Hopen.
    + rewrite (saveFoodEntry_run env entry e w Hobj Hopen).
      destruct (_ && _); simpl; [|done].
      intros [= <-]. exists (prepared env e).
      by rewrite lookup_insert_eq.
    + by rewrite saveFoodEntry_open_failure.
  - intros Hopen Hadd Hfree.
    rewrite (saveFoodEntry_run env entry e w Hobj Hopen), Hadd.
    by rewrite bool_decide_eq_true_2.
Qed.

(** C8, as amended.  For an entry without an id, the id [saveFoodEntry] is
    fulfilled with is "local_", the decimal digits of [Date.now()], "_", and
    the characters that follow "0." in the radix-36 rendering of the random
    draw, cut after nine: lower-case letters and digits.  It matches
    [local_<digits>_<alnum>] whenever the draw is not zero; the suffix is
    empty exactly when the draw is zero.  The id is returned whenever the
    database opens, the add request is served and the key is free. *)
Theorem saveFoodEntry_generated_id_shape env entry e w :
  objects w !! entry = Some e →
  no_id e = true →
  base36_rendering (random36 env) = true →
  (∀ k, (saveFoodEntry env entry w).1 = Fulfilled k →
        k = "local_" +:+ string_of_N (now env) +:+ "_" +:+
              substr 2 9 (random36 env) ∧
        string_of_N (now env) ≠ "" ∧
        all_chars is_digit (string_of_N (now env)) = true ∧
        all_chars is_base36 (substr 2 9 (random36 env)) = true ∧
        (String.length (substr 2 9 (random36 env)) ≤ 9)%nat ∧
        (∀ frac, random36 env = "0." +:+ frac →
                 substr 2 9 (random36 env) = substr 0 9 frac) ∧
        (random36 env = "0" ↔ substr 2 9 (random36 env) = "") ∧
        (random36 env ≠ "0" → local_id_pattern k)) ∧
  (idb_ok env OpOpen = true → idb_ok env OpAdd = true →
   foodEntries w !! ("local_" +:+ string_of_N (now env) +:+ "_" +:+
                       substr 2 9 (random36 env)) = None →
   (saveFoodEntry env entry w).1 =
     Fulfilled ("local_" +:+ string_of_N (now env) +:+ "_" +:+
                  substr 2 9 (random36 env))).
Proof.
  intros Hobj Hno Hrandom.
  assert (as_string (id (prepared env e)) = generate_id env) as Hkey.
  { by rewrite prepared_id, Hno. }
  fold (generate_id env).
  destruct (random_suffix_shape _ Hrandom) as (Hchars & Hlen & Hempty & Hfrac).
  split.
  - intros k. destruct (idb_ok env OpOpen) eqn:Hopen.
    + rewrite (saveFoodEntry_run env entry e w Hobj Hopen), Hkey.
      destruct (_ && _); simpl; [|done].
      intros [= <-].
      split; [done|]. split; [apply string_of_N_nonempty|].
      split; [apply string_of_N_digits|]. split; [done|]. split; [done|].
      split; [done|]. split; [done|]. by apply generate_id_pattern.
    + by rewrite saveFoodEntry_open_failure.
  - intros Hopen Hadd Hfree.
    rewrite (saveFoodEntry_run env entry e w Hobj Hopen), Hkey, Hadd.
    by rewrite bool_decide_eq_true_2.
Qed.

(** C8, the claim as it stands, refuted: when the random draw is zero its
    rendering is "0", nothing follows "0.", and the id returned for the
    sample entry ends at the underscore, which [local_<digits>_<alnum>] does
    not match. *)
Lemma saveFoodEntry_zero_draw_id :
  objects sample_world !! 1%positive = Some apple ∧ no_id apple = true ∧
  (saveFoodEntry host_zero_draw 1%positive sample_world).1 =
    Fulfilled "local_1730000000000_" ∧
  ¬ local_id_pattern "local_1730000000000_".
Proof.
  split; [reflexivity|]. split; [reflexivity|]. split; [reflexivity|].
  intros (digits & suffix & Heq & _ & Hdigits & Hsuffix & _).
  simpl in Heq. injection Heq as Heq.
  change ("1730000000000" +:+ String "_" "" = digits +:+ String "_" suffix)
    in Heq.
  apply digits_delimited in Heq as [_ <-]; done.
Qed.

(** C10.  Once the database is open, [saveFoodEntry] leaves the caller's
    object with the generated id where it had none and with [synced = false],
    the other members untouched, whether the add request then succeeds or
    fails: the stored copy is that object on success, and on failure the
    promise is rejected and the store unchanged while the object stays
    rewritten. *)
Theorem saveFoodEntry_mutates_argument env entry e w :
  objects w !! entry = Some e →
  idb_ok env OpOpen = true →
  ∃ e',
    objects (saveFoodEntry env entry w).2 !! entry = Some e' ∧
    id e' = (if no_id e then Some (generate_id env) else id e) ∧
    synced e' = Some false ∧
    (name e' = name e ∧ calories e' = calories e ∧ protein e' = protein e ∧
     carbs e' = carbs e ∧ fat e' = fat e ∧ date e' = date e ∧
     userId e' = userId e) ∧
    (∀ k, (saveFoodEntry env entry w).1 = Fulfilled k →
          foodEntries (saveFoodEntry env entry w).2 !! k = Some e') ∧
    (idb_ok env OpAdd = false ∨
     is_Some (foodEntries w !! as_string (id e')) →
     (saveFoodEntry env entry w).1 =
       Rejected "Error saving food entry to IndexedDB" ∧
     foodEntries (saveFoodEntry env entry w).2 = foodEntries w).
Proof.
  intros Hobj Hopen. exists (prepared env e).
  rewrite (saveFoodEntry_run env entry e w Hobj Hopen).
  split; [|split; [apply prepared_id | split; [done | split; [apply prepared_payload|]]]].
  - destruct (_ && _); simpl; apply lookup_insert_eq.
  - split.
    + intros k. destruct (_ && _); simpl; [|done].
      intros [= <-]. apply lookup_insert_eq.
    + intros [Hadd|[r Htaken]].
      * by rewrite Hadd.
      * rewrite bool_decide_eq_false_2, andb_false_r; [done|].
        by rewrite Htaken.
Qed.

(** ** Queries *)

Lemma in_range_within a b d :
  date_ge d a && date_lt d b = true ↔ within a b d.
Proof.
  unfold date_ge, date_lt, within.
  destruct a as [ta|], b as [tb|], d as [t|]; simpl;
    rewrite ?andb_false_r; try (split; [discriminate | tauto]).
  rewrite andb_true_iff, !bool_decide_eq_true. done.
Qed.

Lemma elem_of_owner_index u s r :
  r ∈ index_getAll (λ e, userId e = u) s ↔ owned_by u s r.
Proof. apply elem_of_index_getAll. Qed.

Lemma index_getAll_NoDup (P : FoodEntry → Prop) `{∀ e, Decision (P e)} s :
  store_wf s → NoDup (index_getAll P s).
Proof.
  intros Hwf. apply NoDup_filter, NoDup_fmap_2_strong; [|apply NoDup_map_to_list].
  intros [k1 r1] [k2 r2] H1%elem_of_map_to_list H2%elem_of_map_to_list.
  simpl. intros <-. f_equal.
  pose proof (Hwf _ _ H1). pose proof (Hwf _ _ H2). congruence.
Qed.

Section Query.

Context (env : Env).

Lemma userIndex_getAll_ok u w :
  idb_ok env OpUserIndexGetAll = true →
  userIndex_getAll env u w =
    (Fulfilled (onsuccess (index_getAll (λ e, userId e = u) (foodEntries w))), w).
Proof. intros Hok. unfold userIndex_getAll. by rewrite Hok. Qed.

Lemma userIndex_getAll_error u w :
  idb_ok env OpUserIndexGetAll = false →
  userIndex_getAll env u w = (Fulfilled onerror, w).
Proof. intros Hok. unfold userIndex_getAll. by rewrite Hok. Qed.

Lemma getFoodEntries_run u dayStart dayEnd w :
  idb_ok env OpOpen = true → idb_ok env OpUserIndexGetAll = true →
  getFoodEntries env u dayStart dayEnd w =
    (Fulfilled
       match dayStart, dayEnd with
       | Some a, Some b =>
           List.filter (λ entry, date_ge (date entry) a && date_lt (date entry) b)
                       (index_getAll (λ e, userId e = u) (foodEntries w))
       | _, _ => index_getAll (λ e, userId e = u) (foodEntries w)
       end, w).
Proof.
  intros Hopen Hget. unfold getFoodEntries.
  erewrite adopt_run; cycle 1.
  { apply try_catch_fulfilled.
    erewrite await_fulfilled by by apply openDatabase_ok. reflexivity. }
  by erewrite await_fulfilled by by apply userIndex_getAll_ok.
Qed.

(** The rejection of [openDatabase] is awaited inside the [try] block: it is
    caught, logged and turned into the empty result. *)
Lemma getFoodEntries_open_failure u dayStart dayEnd w :
  idb_ok env OpOpen = false →
  getFoodEntries env u dayStart dayEnd w =
    (Fulfilled [],
     with_console
       (λ c, c ++ ["Error in getFoodEntries: Error opening IndexedDB database"]) w).
Proof.
  intros Hopen. unfold getFoodEntries.
  erewrite adopt_run; [reflexivity|].
  erewrite try_catch_rejected; cycle 1.
  { erewrite await_rejected by by apply openDatabase_fails. reflexivity. }
  reflexivity.
Qed.

(** The promise built around the request is returned, not awaited: when
    [request.onerror] rejects it, the [catch] block is not entered and the
    caller receives the rejection. *)
Lemma getFoodEntries_request_error u dayStart dayEnd w :
  idb_ok env OpOpen = true → idb_ok env OpUserIndexGetAll = false →
  getFoodEntries env u dayStart dayEnd w =
    (Rejected "Error retrieving food entries from IndexedDB", w).
Proof.
  intros Hopen Hget. unfold getFoodEntries.
  erewrite adopt_run; cycle 1.
  { apply try_catch_fulfilled.
    erewrite await_fulfilled by by apply openDatabase_ok. reflexivity. }
  by erewrite await_fulfilled by by apply userIndex_getAll_error.
Qed.

Lemma getFoodEntries_store u dayStart dayEnd w :
  foodEntries (getFoodEntries env u dayStart dayEnd w).2 = foodEntries w.
Proof.
  destruct (idb_ok env OpOpen) eqn:Hopen.
  - destruct (idb_ok env OpUserIndexGetAll) eqn:Hget.
    + by rewrite getFoodEntries_run.
    + by rewrite getFoodEntries_request_error.
  - by rewrite getFoodEntries_open_failure.
Qed.

End Query.

(** C4.  With the database open and the index lookup served,
    [getFoodEntries] without a range is fulfilled with exactly the stored
    records of the owner, and with both bounds with exactly those of them whose
    date lies in the half-open range; a record dated at the end bound is left
    out and, when the range is not empty, one dated at the start bound is
    included. *)
Theorem getFoodEntries_exact env u w :
  idb_ok env OpOpen = true →
  idb_ok env OpUserIndexGetAll = true →
  (∃ l, getFoodEntries env u None None w = (Fulfilled l, w) ∧
        (∀ r, r ∈ l ↔ owned_by u (foodEntries w) r) ∧
        (store_wf (foodEntries w) → NoDup l)) ∧
  (∀ a b,
     ∃ l, getFoodEntries env u (Some a) (Some b) w = (Fulfilled l, w) ∧
          (∀ r, r ∈ l ↔ owned_by u (foodEntries w) r ∧ within a b (date r)) ∧
          (store_wf (foodEntries w) → NoDup l) ∧
          (∀ r, date r = b → r ∉ l) ∧
          (∀ r ta tb, owned_by u (foodEntries w) r →
                      a = DateAt ta → b = DateAt tb → ta < tb →
                      date r = a → r ∈ l)).
Proof.
  intros Hopen Hget. split.
  - eexists. split; [by apply getFoodEntries_run|]. split.
    + intros r. apply elem_of_owner_index.
    + apply index_getAll_NoDup.
  - intros a b. eexists. split; [by apply getFoodEntries_run|].
    assert (∀ r, r ∈ List.filter
                   (λ entry, date_ge (date entry) a && date_lt (date entry) b)
                   (index_getAll (λ e, userId e = u) (foodEntries w))
                 ↔ owned_by u (foodEntries w) r ∧ within a b (date r)) as Hin.
    { intros r. rewrite list_elem_of_In, filter_In, <- list_elem_of_In.
      by rewrite elem_of_owner_index, in_range_within. }
    split; [done|]. split; [|split].
    + intros Hwf. apply NoDup_ListNoDup, List.NoDup_filter, NoDup_ListNoDup.
      by apply index_getAll_NoDup.
    + intros r Hr [_ Hwithin]%Hin. rewrite Hr in Hwithin.
      unfold within in Hwithin. destruct a, b; try done. lia.
    + intros r ta tb Hown -> -> Hlt Hr. apply Hin. split; [done|].
      rewrite Hr. simpl. lia.
Qed.

(** C9.  A lone bound is ignored: [getFoodEntries] with only [dayStart] or
    only [dayEnd] is the call without bounds, and on the normal path its
    result is every record of the owner, whatever its date. *)
Theorem getFoodEntries_single_bound_ignored env u d w :
  getFoodEntries env u (Some d) None w = getFoodEntries env u None None w ∧
  getFoodEntries env u None (Some d) w = getFoodEntries env u None None w ∧
  (idb_ok env OpOpen = true → idb_ok env OpUserIndexGetAll = true →
   ∃ l, getFoodEntries env u (Some d) None w = (Fulfilled l, w) ∧
        getFoodEntries env u None (Some d) w = (Fulfilled l, w) ∧
        ∀ r, r ∈ l ↔ owned_by u (foodEntries w) r).
Proof.
  split; [done|]. split; [done|].
  intros Hopen Hget. eexists.
  split; [by apply getFoodEntries_run|].
  split; [by apply getFoodEntries_run|].
  intros r. apply elem_of_owner_index.
Qed.

(** ** Monotonicity of the flag *)

Lemma sync_entry_raised env e w k r :
  foodEntries w !! k = Some r → synced r = Some true →
  ∃ r', foodEntries (sync_entry env e w).2 !! k = Some r' ∧ synced r' = Some true.
Proof.
  intros Hk Hr. destruct (sync_entry_run env e w) as [c ->]. simpl.
  by eapply pushed_store_raised.
Qed.

Lemma syncWithServer_raised env w k r :
  foodEntries w !! k = Some r → synced r = Some true →
  ∃ r', foodEntries (syncWithServer env w).2 !! k = Some r' ∧
        synced r' = Some true.
Proof.
  intros Hk Hr. destruct (syncWithServer_frame env w) as [-> _]. eauto.
Qed.

Lemma engine_step_raised w w' k r :
  engine_step w w' → foodEntries w !! k = Some r → synced r = Some true →
  ∃ r', foodEntries w' !! k = Some r' ∧ synced r' = Some true.
Proof.
  intros Hstep Hk Hr. destruct Hstep as [env entry w|env u a b w|env e w|env w].
  - exists r. split; [by apply saveFoodEntry_keeps | done].
  - exists r. by rewrite getFoodEntries_store.
  - by eapply sync_entry_raised.
  - by eapply syncWithServer_raised.
Qed.

(** C7.  Along any sequence of steps of the module (insertions, queries,
    single runs of the loop body of a sync pass, whole sync passes) a record
    stored with [synced = true] stays stored under its key with
    [synced = true]: no step lowers a raised flag. *)
Theorem synced_flag_monotonic w w' k r :
  rtc engine_step w w' →
  foodEntries w !! k = Some r → synced r = Some true →
  ∃ r', foodEntries w' !! k = Some r' ∧ synced r' = Some true.
Proof.
  intros Hsteps. revert r.
  induction Hsteps as [w|w w1 w' Hstep _ IH]; intros r Hk Hr; [eauto|].
  destruct (engine_step_raised w w1 k r Hstep Hk Hr) as (r1 & Hk1 & Hr1).
  by eapply IH.
Qed.

(** C5.  When the lookup in the 'userId' index fails, [getFoodEntries] does
    not settle on the empty result: the caller receives the rejection of the
    promise the function returned. *)
Theorem getFoodEntries_request_error_reaches_caller :
  getFoodEntries host_read_error "u1" None None sample_world =
    (Rejected "Error retrieving food entries from IndexedDB", sample_world).
Proof. by apply getFoodEntries_request_error. Qed.


(** ** Witnesses on the sample data *)

(** Settles a decidable goal about concrete data by running its decision. *)
Ltac decide_by_running :=
  refine (bool_decide_unpack _ _); vm_compute; exact I.

Lemma sample_store_wf : store_wf sample_store.
Proof. decide_by_running. Qed.

Lemma sample_scan_stored x :
  x ∈ sample_scan → stored_unsynced (foodEntries sample_world) x.
Proof.
  intros Hx. unfold sample_scan in Hx.
  repeat (apply elem_of_cons in Hx as [->|Hx]).
  - split; [reflexivity|]. exists "c". reflexivity.
  - split; [reflexivity|]. exists "a". reflexivity.
  - split; [reflexivity|]. exists "b". reflexivity.
  - by apply elem_of_nil in Hx.
Qed.



Lemma saveFoodEntry_persists_unsynced_witness :
  synced apple = Some true ∧
  ∃ p, foodEntries (saveFoodEntry host_ok 1%positive sample_world).2
         !! "local_1730000000000_4fzyo82mv" = Some p ∧
       synced p = Some false ∧ p = prepared host_ok apple.
Proof.
  split; [reflexivity|].
  destruct (saveFoodEntry_persists_unsynced host_ok 1%positive apple sample_world)
    as [Hstored Hsettles]; [reflexivity|].
  apply Hstored, Hsettles; reflexivity.
Defined.

Lemma getFoodEntries_exact_witness :
  (∃ l, getFoodEntries host_ok "u1" None None sample_world
          = (Fulfilled l, sample_world) ∧
        (∀ r, r ∈ l ↔ owned_by "u1" sample_store r) ∧
        (store_wf sample_store → NoDup l)) ∧
  (∀ a b,
     ∃ l, getFoodEntries host_ok "u1" (Some a) (Some b) sample_world
            = (Fulfilled l, sample_world) ∧
          (∀ r, r ∈ l ↔ owned_by "u1" sample_store r ∧ within a b (date r)) ∧
          (store_wf sample_store → NoDup l) ∧
          (∀ r, date r = b → r ∉ l) ∧
          (∀ r ta tb, owned_by "u1" sample_store r →
                      a = DateAt ta → b = DateAt tb → ta < tb →
                      date r = a → r ∈ l)).
Proof.
  apply (getFoodEntries_exact host_ok "u1" sample_world); reflexivity.
Defined.

Lemma syncWithServer_offline_noop_witness :
  pushed_between sample_world (syncWithServer host_offline sample_world).2 = [] ∧
  requests (syncWithServer host_offline sample_world).2 = requests sample_world ∧
  foodEntries (syncWithServer host_offline sample_world).2
    = foodEntries sample_world ∧
  syncWithServer host_offline sample_world = (Fulfilled tt, sample_world).
Proof.
  apply (syncWithServer_offline_noop host_offline sample_world). reflexivity.
Defined.

Lemma synced_flag_monotonic_witness :
  ∃ r', foodEntries
          (syncWithServer host_ok
             (saveFoodEntry host_ok 1%positive sample_world).2).2 !! "d"
          = Some r' ∧
        synced r' = Some true.
Proof.
  apply (synced_flag_monotonic sample_world _ "d" rec_d).
  - eapply rtc_l; [apply (step_insert host_ok 1%positive)|].
    apply rtc_once, step_sync.
  - reflexivity.
  - reflexivity.
Defined.

Lemma saveFoodEntry_generated_id_shape_witness :
  (saveFoodEntry host_ok 1%positive sample_world).1
    = Fulfilled "local_1730000000000_4fzyo82mv" ∧
  local_id_pattern "local_1730000000000_4fzyo82mv".
Proof.
  destruct (saveFoodEntry_generated_id_shape host_ok 1%positive apple sample_world)
    as [Hshape Hsettles]; [reflexivity | reflexivity | reflexivity |].
  split.
  - apply Hsettles; reflexivity.
  - destruct (Hshape "local_1730000000000_4fzyo82mv")
      as (_ & _ & _ & _ & _ & _ & _ & Hpattern).
    + apply Hsettles; reflexivity.
    + apply Hpattern. discriminate.
Defined.

Lemma getFoodEntries_single_bound_ignored_witness :
  ∃ l, getFoodEntries host_ok "u1" (Some (DateAt 2500)) None sample_world
         = (Fulfilled l, sample_world) ∧
       getFoodEntries host_ok "u1" None (Some (DateAt 2500)) sample_world
         = (Fulfilled l, sample_world) ∧
       ∀ r, r ∈ l ↔ owned_by "u1" sample_store r.
Proof.
  destruct (getFoodEntries_single_bound_ignored host_ok "u1" (DateAt 2500)
              sample_world) as (_ & _ & Hall).
  apply Hall; reflexivity.
Defined.

Lemma saveFoodEntry_mutates_argument_witness :
  ∃ e',
    objects (saveFoodEntry host_write_error 1%positive sample_world).2
      !! 1%positive = Some e' ∧
    id e' = Some "local_1730000000000_4fzyo82mv" ∧
    synced e' = Some false ∧
    (saveFoodEntry host_write_error 1%positive sample_world).1
      = Rejected "Error saving food entry to IndexedDB".
Proof.
  destruct (saveFoodEntry_mutates_argument host_write_error 1%positive apple
              sample_world) as (e' & Hobj & Hid & Hsynced & _ & _ & Hfails);
    [reflexivity | reflexivity |].
  exists e'. split; [exact Hobj|]. split; [exact Hid|]. split; [exact Hsynced|].
  apply Hfails. left. reflexivity.
Defined.

(** * Further properties of the module *)

(** ** The key invariant of the store *)

Section StoreInvariant.

Context (env : Env).

Lemma pushed_store_wf s e : store_wf s → store_wf (pushed_store env s e).
Proof.
  intros Hwf. unfold pushed_store.
  destruct (remote env e) as [[|]|]; try done.
  destruct (id e) as [k|] eqn:Hid; try done.
  by apply store_wf_insert.
Qed.

Lemma foldl_pushed_store_wf l s :
  store_wf s → store_wf (foldl (pushed_store env) s l).
Proof.
  revert s. induction l as [|e l IH]; intros s Hwf; [done|].
  simpl. by apply IH, pushed_store_wf.
Qed.

Lemma sync_entry_wf e w :
  store_wf (foodEntries w) → store_wf (foodEntries (sync_entry env e w).2).
Proof.
  intros Hwf. destruct (sync_entry_run env e w) as [c ->]. simpl.
  by apply pushed_store_wf.
Qed.

Lemma syncWithServer_wf w :
  store_wf (foodEntries w) → store_wf (foodEntries (syncWithServer env w).2).
Proof. intros Hwf. by destruct (syncWithServer_frame env w) as [-> _]. Qed.

Lemma saveFoodEntry_wf entry w :
  store_wf (foodEntries w) → store_wf (foodEntries (saveFoodEntry env entry w).2).
Proof.
  intros Hwf. destruct (idb_ok env OpOpen) eqn:Hopen.
  - destruct (objects w !! entry) as [e|] eqn:Hobj.
    + rewrite (saveFoodEntry_run env entry e w Hobj Hopen).
      destruct (_ && _); simpl; [|done].
      apply store_wf_insert; [done | apply prepared_key].
    + by rewrite saveFoodEntry_dangling.
  - by rewrite saveFoodEntry_open_failure.
Qed.

(** The store after the loop over a list of stored records, key by key. *)
Lemma sync_loop_lookup s (scanned : list FoodEntry) k :
  store_wf s → (∀ x, x ∈ scanned → ∃ k', s !! k' = Some x) →
  foldl (pushed_store env) s scanned !! k = s !! k ∨
  ∃ r, s !! k = Some r ∧ r ∈ scanned ∧ remote env r = Responds true ∧
       foldl (pushed_store env) s scanned !! k = Some (set_synced (Some true) r).
Proof.
  intros Hwf Hstored.
  destruct (decide (Exists (λ e, id e = Some k ∧ remote env e = Responds true)
                      scanned)) as [Hhit|Hmiss].
  - right. apply Exists_exists in Hhit as (e & He & Hid & Hok).
    exists e. destruct (Hstored e He) as [k' Hk'].
    pose proof (Hwf _ _ Hk') as Hid'. simpl in Hid'.
    assert (k' = k) as -> by congruence.
    split; [done|]. split; [done|]. split; [done|].
    apply foldl_pushed_store_hit; try done.
    by apply (scanned_key_functional s).
  - left. apply foldl_pushed_store_frame.
    intros e He Hid Hok. apply Hmiss, Exists_exists. eauto.
Qed.

End StoreInvariant.

(** X1.  The key invariant: along any sequence of steps of the module a
    store in which every record sits under the key its [id] holds stays such a
    store.  It holds of the empty store, so of every store the module builds. *)
Theorem store_wf_invariant w w' :
  rtc engine_step w w' →
  store_wf (foodEntries w) → store_wf (foodEntries w').
Proof.
  intros Hsteps. induction Hsteps as [w|w w1 w' Hstep _ IH]; [done|].
  intros Hwf. apply IH. clear IH.
  destruct Hstep as [env entry w|env u a b w|env e w|env w].
  - by apply saveFoodEntry_wf.
  - by rewrite getFoodEntries_store.
  - by apply sync_entry_wf.
  - by apply syncWithServer_wf.
Qed.

(** ** Sync passes *)

(** X2.  A sync pass never rejects, whatever the host does, and what it
    writes to the console tells how it ended: nothing when offline; the reason
    of [openDatabase] when the database does not open; and, with the database
    open, the DataError that [syncIndex.getAll(false)] throws, a boolean being
    no valid key. *)
Theorem syncWithServer_swallows_failures env w :
  (syncWithServer env w).1 = Fulfilled tt ∧
  (onLine env = false → console (syncWithServer env w).2 = console w) ∧
  (onLine env = true → idb_ok env OpOpen = false →
   console (syncWithServer env w).2 =
     console w ++ ["Error in syncWithServer: Error opening IndexedDB database"]) ∧
  (onLine env = true → idb_ok env OpOpen = true →
   console (syncWithServer env w).2 =
     console w ++ ["Error in syncWithServer: " +:+ DataError]).
Proof.
  split; [apply syncWithServer_fulfilled|]. split; [|split].
  - intros Hoff. by rewrite syncWithServer_offline_run.
  - intros Hon Hopen. by rewrite syncWithServer_open_failure_run.
  - intros Hon Hopen. by rewrite syncWithServer_scan_throws_run.
Qed.

(** X3.  A sync pass never reaches its loop: under every host it sends no
    request and leaves the store, the callers' objects and the follow-ups as
    they are, so a record stored with [synced = false] is neither pushed nor
    flagged by a pass, however the server would answer. *)
Theorem syncWithServer_never_pushes env w :
  pushed_between w (syncWithServer env w).2 = [] ∧
  requests (syncWithServer env w).2 = requests w ∧
  foodEntries (syncWithServer env w).2 = foodEntries w ∧
  objects (syncWithServer env w).2 = objects w ∧
  started (syncWithServer env w).2 = started w.
Proof.
  destruct (syncWithServer_frame env w) as (Hstore & Hreq & Hobj & Hstarted).
  split; [|done]. unfold pushed_between. rewrite Hreq. apply drop_all.
Qed.

(** X4.  A pass over a well-keyed store changes flags and nothing else: the
    store keeps its keys, no record is added or removed, and a record is
    either the one it was or the one it was with [synced] raised from false to
    true after the server accepted it.  The callers' objects and the started
    follow-ups are untouched. *)
Theorem syncWithServer_changes_only_flags env w :
  store_wf (foodEntries w) →
  dom (foodEntries (syncWithServer env w).2) = dom (foodEntries w) ∧
  (∀ k r', foodEntries (syncWithServer env w).2 !! k = Some r' →
     ∃ r, foodEntries w !! k = Some r ∧ same_but_synced r r' ∧
          (r' = r ∨
           synced r = Some false ∧ synced r' = Some true ∧
           remote env r = Responds true)) ∧
  objects (syncWithServer env w).2 = objects w ∧
  started (syncWithServer env w).2 = started w.
Proof.
  intros Hwf. destruct (syncWithServer_frame env w) as (-> & _ & -> & ->).
  split; [done|]. split; [|done].
  intros k r' Hk. exists r'. split; [done|]. split; [by repeat split | by left].
Qed.

(** X5.  The loop of a pass, run on any list of records of a well-keyed
    store, changes flags and nothing else: it sends one request per listed
    record, in the order of the list, whatever the answers; the store keeps
    its keys; and a record afterwards is either the one it was, or a listed
    record whose push was accepted, with [synced] set to true.  The callers'
    objects and the follow-ups are untouched. *)
Theorem sync_loop_changes_only_flags env w (scanned : list FoodEntry) :
  store_wf (foodEntries w) →
  (∀ x, x ∈ scanned → ∃ k, foodEntries w !! k = Some x) →
  requests (for_of scanned (sync_entry env) w).2 = requests w ++ scanned ∧
  dom (foodEntries (for_of scanned (sync_entry env) w).2) = dom (foodEntries w) ∧
  (∀ k r', foodEntries (for_of scanned (sync_entry env) w).2 !! k = Some r' →
     ∃ r, foodEntries w !! k = Some r ∧ same_but_synced r r' ∧
          (r' = r ∨
           r ∈ scanned ∧ remote env r = Responds true ∧
           r' = set_synced (Some true) r)) ∧
  objects (for_of scanned (sync_entry env) w).2 = objects w ∧
  started (for_of scanned (sync_entry env) w).2 = started w.
Proof.
  intros Hwf Hstored.
  destruct (for_of_sync_entry_run env scanned w) as [c ->]. simpl.
  split; [done|]. split; [|split; [|done]].
  - apply set_eq. intros k. rewrite !elem_of_dom.
    destruct (sync_loop_lookup env (foodEntries w) scanned k Hwf Hstored)
      as [->|(r & -> & _ & _ & ->)]; [done|]. split; eauto.
  - intros k r' Hk'.
    destruct (sync_loop_lookup env (foodEntries w) scanned k Hwf Hstored)
      as [Hsame|(r & Hk & Hin & Hok & Hnew)].
    + exists r'. rewrite <- Hsame. split; [done|].
      split; [by repeat split | by left].
    + exists r. rewrite Hnew in Hk'. injection Hk' as <-.
      split; [done|]. split; [apply set_synced_same|]. by right.
Qed.

(** X7.  One run of the loop body always sends its request and is fulfilled.
    A call of [fetch] that throws is logged with one console line; a response
    that is not ok is not logged at all; in both cases the store is left as it
    is.  An accepted record of a keyed entry is written back with its flag
    raised. *)
Theorem sync_entry_outcomes env e w :
  (sync_entry env e w).1 = Fulfilled tt ∧
  requests (sync_entry env e w).2 = requests w ++ [e] ∧
  (remote env e = NetworkError →
   foodEntries (sync_entry env e w).2 = foodEntries w ∧
   console (sync_entry env e w).2 =
     console w ++ ["Error syncing entry with server: TypeError: Failed to fetch"]) ∧
  (remote env e = Responds false →
   foodEntries (sync_entry env e w).2 = foodEntries w ∧
   console (sync_entry env e w).2 = console w) ∧
  (∀ k, remote env e = Responds true → id e = Some k →
   foodEntries (sync_entry env e w).2 =
     <[k := set_synced (Some true) e]> (foodEntries w) ∧
   console (sync_entry env e w).2 = console w).
Proof.
  unfold sync_entry, try_catch, fetch, store_put.
  unfold mbind, Async_bind, await, mret, Async_ret, resolve, console_error.
  destruct (remote env e) as [[|]|] eqn:Hremote; simpl;
    [destruct (id e) as [k|] eqn:Hid; simpl|..];
    split_and!; try done; intros; by simplify_eq.
Qed.

(** ** Insertions *)

(** What a fulfilled insertion has done. *)
Lemma saveFoodEntry_fulfilled_inv env entry e w k :
  objects w !! entry = Some e →
  (saveFoodEntry env entry w).1 = Fulfilled k →
  idb_ok env OpOpen = true ∧ idb_ok env OpAdd = true ∧
  id (prepared env e) = Some k ∧ foodEntries w !! k = None ∧
  saveFoodEntry env entry w =
    (Fulfilled k,
     mkWorld (<[entry := prepared env e]> (objects w))
             (<[k := prepared env e]> (foodEntries w))
             (requests w) (console w) (started w ++ follow_up env)).
Proof.
  intros Hobj. destruct (idb_ok env OpOpen) eqn:Hopen.
  - rewrite (saveFoodEntry_run env entry e w Hobj Hopen).
    destruct (idb_ok env OpAdd) eqn:Hadd; simpl; [|done].
    case_bool_decide as Hfree; simpl; [|done].
    intros [= <-]. split_and!; try done. apply prepared_key.
  - by rewrite saveFoodEntry_open_failure.
Qed.

(** X8.  When the database does not open, [saveFoodEntry] rejects with the
    reason of [openDatabase] and logs it once; the caller's objects, the
    store, the network and the follow-ups are left as they were: no id is
    generated and no flag is written. *)
Theorem saveFoodEntry_open_failure_leaves_everything env entry w :
  idb_ok env OpOpen = false →
  (saveFoodEntry env entry w).1 = Rejected "Error opening IndexedDB database" ∧
  objects (saveFoodEntry env entry w).2 = objects w ∧
  foodEntries (saveFoodEntry env entry w).2 = foodEntries w ∧
  requests (saveFoodEntry env entry w).2 = requests w ∧
  started (saveFoodEntry env entry w).2 = started w ∧
  console (saveFoodEntry env entry w).2 =
    console w ++ ["Error in saveFoodEntry: Error opening IndexedDB database"].
Proof. intros Hopen. by rewrite saveFoodEntry_open_failure. Qed.

(** X9.  A failed add request, be it refused by the engine or because the id
    is taken, rejects the insertion without a console line and without
    starting a follow-up; the record that held the key, if any, is still the
    one stored there. *)
Theorem saveFoodEntry_add_failure_silent env entry e w :
  objects w !! entry = Some e →
  idb_ok env OpOpen = true →
  idb_ok env OpAdd = false ∨
    is_Some (foodEntries w !! as_string (id (prepared env e))) →
  (saveFoodEntry env entry w).1 =
    Rejected "Error saving food entry to IndexedDB" ∧
  console (saveFoodEntry env entry w).2 = console w ∧
  started (saveFoodEntry env entry w).2 = started w ∧
  requests (saveFoodEntry env entry w).2 = requests w ∧
  foodEntries (saveFoodEntry env entry w).2 = foodEntries w.
Proof.
  intros Hobj Hopen Hfail.
  rewrite (saveFoodEntry_run env entry e w Hobj Hopen).
  destruct Hfail as [Hadd|[r Htaken]].
  - by rewrite Hadd.
  - rewrite bool_decide_eq_false_2, andb_false_r; [done|]. by rewrite Htaken.
Qed.

(** X10.  What a fulfilled insertion starts: online, one call of
    [syncWithServer]; offline with the background sync capability, one
    registration; offline without it, nothing.  The insertion itself sends no
    request and writes no console line. *)
Theorem saveFoodEntry_follow_up env entry e w k :
  objects w !! entry = Some e →
  (saveFoodEntry env entry w).1 = Fulfilled k →
  started (saveFoodEntry env entry w).2 =
    started w ++
      (if onLine env then [CallSyncWithServer]
       else if backgroundSync env then [RegisterBackgroundSync]
       else []) ∧
  requests (saveFoodEntry env entry w).2 = requests w ∧
  console (saveFoodEntry env entry w).2 = console w.
Proof.
  intros Hobj Hk.
  destruct (saveFoodEntry_fulfilled_inv env entry e w k Hobj Hk)
    as (_ & _ & _ & _ & ->). done.
Qed.

(** X11.  A fulfilled insertion adds exactly one record: the key was free,
    it now holds the prepared entry, every other key holds what it held, and
    the store has one record more. *)
Theorem saveFoodEntry_adds_one_record env entry e w k :
  objects w !! entry = Some e →
  (saveFoodEntry env entry w).1 = Fulfilled k →
  foodEntries w !! k = None ∧
  foodEntries (saveFoodEntry env entry w).2 !! k = Some (prepared env e) ∧
  (∀ k', k' ≠ k →
     foodEntries (saveFoodEntry env entry w).2 !! k' = foodEntries w !! k') ∧
  size (foodEntries (saveFoodEntry env entry w).2) = S (size (foodEntries w)).
Proof.
  intros Hobj Hk.
  destruct (saveFoodEntry_fulfilled_inv env entry e w k Hobj Hk)
    as (_ & _ & _ & Hfree & ->). simpl.
  split; [done|]. split; [apply lookup_insert_eq|]. split.
  - intros k' Hne. by apply lookup_insert_ne.
  - by apply map_size_insert_None.
Qed.

Lemma owned_by_insert u s k p r :
  s !! k = None →
  owned_by u (<[k := p]> s) r ↔ (r = p ∧ userId p = u) ∨ owned_by u s r.
Proof.
  intros Hfree. unfold owned_by. split.
  - intros [Hu [k' Hk']]. rewrite lookup_insert in Hk'.
    case_decide; [left|right]; simplify_eq; eauto.
  - intros [[-> Hu]|[Hu [k' Hk']]].
    + split; [done|]. exists k. apply lookup_insert_eq.
    + split; [done|]. exists k'. rewrite lookup_insert_ne; [done|congruence].
Qed.

(** The members of a query result, without and with a range. *)
Lemma getFoodEntries_members env u w :
  idb_ok env OpOpen = true → idb_ok env OpUserIndexGetAll = true →
  (∃ l, getFoodEntries env u None None w = (Fulfilled l, w) ∧
        ∀ r, r ∈ l ↔ owned_by u (foodEntries w) r) ∧
  (∀ a b,
     ∃ l, getFoodEntries env u (Some a) (Some b) w = (Fulfilled l, w) ∧
          ∀ r, r ∈ l ↔ owned_by u (foodEntries w) r ∧ within a b (date r)).
Proof.
  intros Hopen Hget. split.
  - eexists. split; [by apply getFoodEntries_run|].
    intros r. apply elem_of_owner_index.
  - intros a b. eexists. split; [by apply getFoodEntries_run|].
    intros r. rewrite list_elem_of_In, filter_In, <- list_elem_of_In.
    by rewrite elem_of_owner_index, in_range_within.
Qed.

(** X12.  Insert, then query: after a fulfilled insertion, a query for the
    entry's owner that reaches the store returns the prepared entry together
    with exactly the owner's records from before; a query with both bounds
    returns it exactly when its date lies in the half-open range. *)
Theorem saveFoodEntry_then_getFoodEntries env env' entry e w k :
  objects w !! entry = Some e →
  (saveFoodEntry env entry w).1 = Fulfilled k →
  idb_ok env' OpOpen = true →
  idb_ok env' OpUserIndexGetAll = true →
  (∃ l, getFoodEntries env' (userId e) None None (saveFoodEntry env entry w).2
          = (Fulfilled l, (saveFoodEntry env entry w).2) ∧
        prepared env e ∈ l ∧
        ∀ r, r ∈ l ↔ r = prepared env e ∨ owned_by (userId e) (foodEntries w) r) ∧
  (∀ a b,
     ∃ l, getFoodEntries env' (userId e) (Some a) (Some b)
            (saveFoodEntry env entry w).2
          = (Fulfilled l, (saveFoodEntry env entry w).2) ∧
          (prepared env e ∈ l ↔ within a b (date e))).
Proof.
  intros Hobj Hk Hopen Hget.
  destruct (saveFoodEntry_fulfilled_inv env entry e w k Hobj Hk)
    as (_ & _ & _ & Hfree & Hrun).
  destruct (prepared_payload env e) as (_ & _ & _ & _ & _ & Hdate & Huser).
  destruct (getFoodEntries_members env' (userId e) (saveFoodEntry env entry w).2
              Hopen Hget) as [(l & Hl & Hin) Hrange].
  assert (∀ r, owned_by (userId e) (foodEntries (saveFoodEntry env entry w).2) r
               ↔ r = prepared env e ∨ owned_by (userId e) (foodEntries w) r)
    as Hown.
  { intros r. rewrite Hrun. simpl. rewrite owned_by_insert by done.
    split; [intros [[-> _]|?]; eauto | intros [->|?]; eauto]. }
  split.
  - exists l. split; [done|]. split.
    + apply Hin, Hown. by left.
    + intros r. by rewrite Hin, Hown.
  - intros a b. destruct (Hrange a b) as (lr & Hlr & Hinr).
    exists lr. split; [done|]. rewrite Hinr, Hdate. split; [by intros [_ ?]|].
    intros Hwithin. split; [|done]. apply Hown. by left.
Qed.

(** X13.  Which id an insertion uses: an entry that brings a non-empty id is
    stored and answered under that id, and an entry whose id is undefined or
    the empty string is stored and answered under the generated one. *)
Theorem saveFoodEntry_id_choice env entry e w k :
  objects w !! entry = Some e →
  (saveFoodEntry env entry w).1 = Fulfilled k →
  (∀ given, id e = Some given → given ≠ "" → k = given) ∧
  (id e = None ∨ id e = Some "" → k = generate_id env) ∧
  id <$> foodEntries (saveFoodEntry env entry w).2 !! k = Some (Some k).
Proof.
  intros Hobj Hk.
  destruct (saveFoodEntry_fulfilled_inv env entry e w k Hobj Hk)
    as (_ & _ & Hid & _ & ->). simpl.
  pose proof Hid as Hstored.
  rewrite prepared_id in Hid. unfold no_id in Hid. split; [|split].
  - intros given Hgiven Hne. rewrite Hgiven in Hid.
    rewrite bool_decide_eq_false_2 in Hid by done. congruence.
  - intros [Hnone|Hempty].
    + rewrite Hnone in Hid. congruence.
    + rewrite Hempty in Hid. rewrite bool_decide_eq_true_2 in Hid by done.
      congruence.
  - rewrite lookup_insert_eq.
    change (Some (id (prepared env e)) = Some (Some k)). by rewrite Hstored.
Qed.

(** ** Identifiers *)

(** X14.  Two generated ids are equal exactly when the clock read the same
    millisecond and the random draws gave the same nine characters: ids
    generated at different times never collide. *)
Theorem generate_id_collision env env' :
  generate_id env = generate_id env' ↔
  now env = now env' ∧
  substr 2 9 (random36 env) = substr 2 9 (random36 env').
Proof.
  unfold generate_id. split.
  - intros Heq. simpl in Heq. injection Heq as Heq.
    apply digits_delimited in Heq as [Hnow Hsuffix];
      try apply string_of_N_digits.
    split; [by apply string_of_N_inj | done].
  - intros [-> ->]. done.
Qed.

(** ** Insert, then sync *)

(** X15.  Insert and the pass it starts: after a fulfilled insertion while
    online the started follow-up is the call of [syncWithServer], and that
    pass ends on the DataError of its lookup: it sends no request, and the new
    record is still stored under its id with [synced = false]. *)
Theorem saveFoodEntry_then_syncWithServer env entry e w k :
  objects w !! entry = Some e →
  (saveFoodEntry env entry w).1 = Fulfilled k →
  onLine env = true →
  CallSyncWithServer ∈ started (saveFoodEntry env entry w).2 ∧
  pushed_between (saveFoodEntry env entry w).2
    (syncWithServer env (saveFoodEntry env entry w).2).2 = [] ∧
  (∃ r, foodEntries (syncWithServer env (saveFoodEntry env entry w).2).2 !! k
          = Some r ∧
        id r = Some k ∧ synced r = Some false) ∧
  console (syncWithServer env (saveFoodEntry env entry w).2).2 =
    console w ++ ["Error in syncWithServer: " +:+ DataError].
Proof.
  intros Hobj Hk Hon.
  destruct (saveFoodEntry_fulfilled_inv env entry e w k Hobj Hk)
    as (Hopen & _ & Hid & Hfree & Hrun).
  destruct (syncWithServer_frame env (saveFoodEntry env entry w).2)
    as (Hstore & Hreq & _ & _).
  split_and!.
  - rewrite Hrun. simpl. unfold follow_up. rewrite Hon.
    apply elem_of_app. right. by left.
  - unfold pushed_between. rewrite Hreq. apply drop_all.
  - exists (prepared env e). rewrite Hstore, Hrun. simpl.
    split; [apply lookup_insert_eq | done].
  - rewrite syncWithServer_scan_throws_run by done. by rewrite Hrun.
Qed.

(** ** Queries, continued *)

(** X16.  When the database does not open, a query is fulfilled with the
    empty list whatever the owner and the bounds, the failure is written to
    the console once, and the store is not touched. *)
Theorem getFoodEntries_open_failure_empty env u dayStart dayEnd w :
  idb_ok env OpOpen = false →
  (getFoodEntries env u dayStart dayEnd w).1 = Fulfilled [] ∧
  console (getFoodEntries env u dayStart dayEnd w).2 =
    console w ++ ["Error in getFoodEntries: Error opening IndexedDB database"] ∧
  foodEntries (getFoodEntries env u dayStart dayEnd w).2 = foodEntries w.
Proof. intros Hopen. by rewrite getFoodEntries_open_failure. Qed.

(** X17.  A query only reads: under every host and for all arguments the
    store, the callers' objects, the requests sent and the follow-ups are
    the same after it, and it writes to the console only when the database
    did not open. *)
Theorem getFoodEntries_read_only env u dayStart dayEnd w :
  foodEntries (getFoodEntries env u dayStart dayEnd w).2 = foodEntries w ∧
  objects (getFoodEntries env u dayStart dayEnd w).2 = objects w ∧
  requests (getFoodEntries env u dayStart dayEnd w).2 = requests w ∧
  started (getFoodEntries env u dayStart dayEnd w).2 = started w ∧
  (idb_ok env OpOpen = true →
   console (getFoodEntries env u dayStart dayEnd w).2 = console w).
Proof.
  destruct (idb_ok env OpOpen) eqn:Hopen.
  - destruct (idb_ok env OpUserIndexGetAll) eqn:Hget.
    + by rewrite getFoodEntries_run.
    + by rewrite getFoodEntries_request_error.
  - by rewrite getFoodEntries_open_failure.
Qed.

Lemma filter_sublist {A} (f : A → bool) (l : list A) :
  List.filter f l `sublist_of` l.
Proof.
  induction l as [|x l IH]; simpl; [done|].
  destruct (f x); by constructor.
Qed.

(** X18.  The range only narrows: the result of a query with both bounds is
    a sublist of the result without bounds, in the same order; it holds no
    record whose date is invalid; and it is empty when a bound is an invalid
    date or when the end is not after the start. *)
Theorem getFoodEntries_range_narrows env u a b w :
  idb_ok env OpOpen = true →
  idb_ok env OpUserIndexGetAll = true →
  ∃ l lr,
    getFoodEntries env u None None w = (Fulfilled l, w) ∧
    getFoodEntries env u (Some a) (Some b) w = (Fulfilled lr, w) ∧
    lr `sublist_of` l ∧
    (∀ r, r ∈ lr → date r ≠ InvalidDate) ∧
    (a = InvalidDate ∨ b = InvalidDate ∨
     (∃ ta tb, a = DateAt ta ∧ b = DateAt tb ∧ tb ≤ ta) → lr = []).
Proof.
  intros Hopen Hget. eexists _, _.
  split; [by apply getFoodEntries_run|].
  split; [by apply getFoodEntries_run|].
  split; [apply filter_sublist|].
  assert (∀ r, r ∈ List.filter
                 (λ entry, date_ge (date entry) a && date_lt (date entry) b)
                 (index_getAll (λ e, userId e = u) (foodEntries w))
               → within a b (date r)) as Hin.
  { intros r. rewrite list_elem_of_In, filter_In, in_range_within. tauto. }
  split.
  - intros r Hr%Hin Hinvalid. rewrite Hinvalid in Hr.
    unfold within in Hr. by destruct a, b.
  - intros Hedge. apply elem_of_nil_inv. intros r Hr%Hin.
    unfold within in Hr.
    destruct Hedge as [->|[->|(ta & tb & -> & -> & Hle)]].
    + done.
    + by destruct a.
    + destruct (date r); [lia | done].
Qed.

(** ** The upgrade handler of [openDatabase] *)

Lemma onupgradeneeded_present db :
  "foodEntries" ∈ dom db → onupgradeneeded db = db.
Proof.
  intros Hhas. unfold onupgradeneeded. by rewrite bool_decide_eq_true_2.
Qed.

Lemma onupgradeneeded_absent db :
  "foodEntries" ∉ dom db →
  onupgradeneeded db = <["foodEntries" := foodEntries_schema]> db.
Proof.
  intros Hhas. unfold onupgradeneeded. by rewrite bool_decide_eq_false_2.
Qed.

(** X19.  The upgrade handler creates the 'foodEntries' store, keyed by 'id'
    and with the three non-unique indexes, when the database has none of that
    name; it leaves every store the database already has as it is, a
    'foodEntries' store of another shape included; and running it again
    changes nothing. *)
Theorem onupgradeneeded_idempotent db :
  onupgradeneeded (onupgradeneeded db) = onupgradeneeded db ∧
  is_Some (onupgradeneeded db !! "foodEntries") ∧
  (∀ name store, db !! name = Some store →
                 onupgradeneeded db !! name = Some store) ∧
  (db !! "foodEntries" = None →
   onupgradeneeded db !! "foodEntries" = Some foodEntries_schema ∧
   dom (onupgradeneeded db) = {["foodEntries"]} ∪ dom db).
Proof.
  destruct (decide ("foodEntries" ∈ dom db)) as [Hhas|Hhas].
  - rewrite !(onupgradeneeded_present db) by done.
    apply elem_of_dom in Hhas as [store Hstore].
    split_and!.
    + done.
    + by rewrite Hstore.
    + done.
    + intros Hnone. congruence.
  - rewrite (onupgradeneeded_absent db) by done.
    rewrite onupgradeneeded_present by (rewrite dom_insert_L; set_solver).
    split_and!; [done | by rewrite lookup_insert_eq | |].
    + intros name store Hname. rewrite lookup_insert_ne; [done|].
      intros <-. apply Hhas, elem_of_dom. eauto.
    + intros _. split; [apply lookup_insert_eq | apply dom_insert_L].
Qed.

(** ** Witnesses of the further properties *)

Lemma store_wf_invariant_witness :
  store_wf (foodEntries
              (syncWithServer host_ok
                 (saveFoodEntry host_ok 1%positive sample_world).2).2).
Proof.
  apply (store_wf_invariant sample_world).
  - eapply rtc_l; [apply (step_insert host_ok 1%positive)|].
    apply rtc_once, step_sync.
  - exact sample_store_wf.
Defined.

Lemma syncWithServer_swallows_failures_witness :
  console (syncWithServer host_offline sample_world).2 = [] ∧
  console (syncWithServer host_no_database sample_world).2 =
    ["Error in syncWithServer: Error opening IndexedDB database"] ∧
  console (syncWithServer host_ok sample_world).2 =
    ["Error in syncWithServer: DataError"].
Proof.
  split; [|split].
  - destruct (syncWithServer_swallows_failures host_offline sample_world)
      as (_ & Hoff & _).
    apply Hoff; reflexivity.
  - destruct (syncWithServer_swallows_failures host_no_database sample_world)
      as (_ & _ & Hopen & _).
    apply Hopen; reflexivity.
  - destruct (syncWithServer_swallows_failures host_ok sample_world)
      as (_ & _ & _ & Hscan).
    apply Hscan; reflexivity.
Defined.

Lemma syncWithServer_changes_only_flags_witness :
  dom (foodEntries (syncWithServer host_refusing_b sample_world).2) =
    dom (foodEntries sample_world) ∧
  (∀ k r', foodEntries (syncWithServer host_refusing_b sample_world).2 !! k
             = Some r' →
     ∃ r, foodEntries sample_world !! k = Some r ∧ same_but_synced r r' ∧
          (r' = r ∨
           synced r = Some false ∧ synced r' = Some true ∧
           remote host_refusing_b r = Responds true)) ∧
  objects (syncWithServer host_refusing_b sample_world).2 = objects sample_world ∧
  started (syncWithServer host_refusing_b sample_world).2 = started sample_world.
Proof.
  apply (syncWithServer_changes_only_flags host_refusing_b sample_world).
  exact sample_store_wf.
Defined.

Lemma sync_loop_changes_only_flags_witness :
  requests (for_of sample_scan (sync_entry host_refusing_b) sample_world).2 =
    sample_scan ∧
  dom (foodEntries (for_of sample_scan (sync_entry host_refusing_b)
                      sample_world).2) = dom sample_store.
Proof.
  destruct (sync_loop_changes_only_flags host_refusing_b sample_world sample_scan)
    as (Hreq & Hdom & _).
  - exact sample_store_wf.
  - intros x Hx. by destruct (sample_scan_stored x Hx).
  - split; [exact Hreq | exact Hdom].
Defined.

Lemma sync_entry_outcomes_witness :
  console (sync_entry host_network_down rec_a sample_world).2 =
    ["Error syncing entry with server: TypeError: Failed to fetch"] ∧
  console (sync_entry host_refusing_b rec_b sample_world).2 = [] ∧
  foodEntries (sync_entry host_ok rec_a sample_world).2 =
    <["a" := set_synced (Some true) rec_a]> sample_store.
Proof.
  split; [|split].
  - destruct (sync_entry_outcomes host_network_down rec_a sample_world)
      as (_ & _ & Hthrown & _).
    apply Hthrown. reflexivity.
  - destruct (sync_entry_outcomes host_refusing_b rec_b sample_world)
      as (_ & _ & _ & Hrefused & _).
    apply Hrefused. reflexivity.
  - destruct (sync_entry_outcomes host_ok rec_a sample_world)
      as (_ & _ & _ & _ & Haccepted).
    apply (Haccepted "a"); reflexivity.
Defined.

Lemma saveFoodEntry_open_failure_leaves_everything_witness :
  (saveFoodEntry host_no_database 1%positive sample_world).1 =
    Rejected "Error opening IndexedDB database" ∧
  objects (saveFoodEntry host_no_database 1%positive sample_world).2 !! 1%positive
    = Some apple.
Proof.
  destruct (saveFoodEntry_open_failure_leaves_everything host_no_database
              1%positive sample_world) as (Hout & Hobj & _); [reflexivity|].
  split; [exact Hout|]. rewrite Hobj. reflexivity.
Defined.

Lemma saveFoodEntry_add_failure_silent_witness :
  (saveFoodEntry host_ok 4%positive caller_world).1 =
    Rejected "Error saving food entry to IndexedDB" ∧
  foodEntries (saveFoodEntry host_ok 4%positive caller_world).2 !! "a" =
    Some rec_a ∧
  started (saveFoodEntry host_ok 4%positive caller_world).2 = [].
Proof.
  destruct (saveFoodEntry_add_failure_silent host_ok 4%positive fig caller_world)
    as (Hout & _ & Hstarted & _ & Hstore).
  - reflexivity.
  - reflexivity.
  - right. exists rec_a. reflexivity.
  - split; [exact Hout|]. rewrite Hstore. split; [reflexivity | exact Hstarted].
Defined.

Lemma saveFoodEntry_follow_up_witness :
  started (saveFoodEntry host_offline 1%positive sample_world).2 =
    [RegisterBackgroundSync] ∧
  started (saveFoodEntry host_offline_plain 1%positive sample_world).2 = [] ∧
  started (saveFoodEntry host_ok 1%positive sample_world).2 = [CallSyncWithServer].
Proof.
  split; [|split].
  - apply (saveFoodEntry_follow_up host_offline 1%positive apple sample_world
             "local_1730000000000_4fzyo82mv"); reflexivity.
  - apply (saveFoodEntry_follow_up host_offline_plain 1%positive apple sample_world
             "local_1730000000000_4fzyo82mv"); reflexivity.
  - apply (saveFoodEntry_follow_up host_ok 1%positive apple sample_world
             "local_1730000000000_4fzyo82mv"); reflexivity.
Defined.

Lemma saveFoodEntry_adds_one_record_witness :
  size (foodEntries (saveFoodEntry host_ok 1%positive sample_world).2) = 5%nat.
Proof.
  destruct (saveFoodEntry_adds_one_record host_ok 1%positive apple sample_world
              "local_1730000000000_4fzyo82mv") as (_ & _ & _ & Hsize);
    [reflexivity | reflexivity |].
  rewrite Hsize. reflexivity.
Defined.

Lemma saveFoodEntry_then_getFoodEntries_witness :
  ∃ l, getFoodEntries host_ok "u1" (Some (DateAt 1729999999000))
         (Some (DateAt 1730000001000))
         (saveFoodEntry host_ok 1%positive sample_world).2
       = (Fulfilled l, (saveFoodEntry host_ok 1%positive sample_world).2) ∧
       prepared host_ok apple ∈ l.
Proof.
  destruct (saveFoodEntry_then_getFoodEntries host_ok host_ok 1%positive apple
              sample_world "local_1730000000000_4fzyo82mv")
    as [_ Hrange]; [reflexivity | reflexivity | reflexivity | reflexivity |].
  destruct (Hrange (DateAt 1729999999000) (DateAt 1730000001000))
    as (l & Hl & Hin).
  exists l. split; [exact Hl|]. apply Hin. simpl. lia.
Defined.

Lemma saveFoodEntry_id_choice_witness :
  (saveFoodEntry host_ok 2%positive caller_world).1 = Fulfilled "srv-42" ∧
  (saveFoodEntry host_ok 3%positive caller_world).1 =
    Fulfilled (generate_id host_ok).
Proof.
  split.
  - destruct (saveFoodEntry_id_choice host_ok 2%positive pear caller_world
                "srv-42") as (Hgiven & _ & _); [reflexivity | reflexivity |].
    reflexivity.
  - destruct (saveFoodEntry_id_choice host_ok 3%positive plum caller_world
                "local_1730000000000_4fzyo82mv") as (_ & Hempty & _);
      [reflexivity | reflexivity |].
    rewrite <- Hempty; [reflexivity | by right].
Defined.

Lemma generate_id_collision_witness :
  generate_id host_ok ≠ generate_id host_later.
Proof.
  intros Heq. apply (generate_id_collision host_ok host_later) in Heq as [Hnow _].
  discriminate Hnow.
Defined.

Lemma saveFoodEntry_then_syncWithServer_witness :
  pushed_between (saveFoodEntry host_ok 1%positive sample_world).2
    (syncWithServer host_ok (saveFoodEntry host_ok 1%positive sample_world).2).2
    = [] ∧
  ∃ r, foodEntries
         (syncWithServer host_ok
            (saveFoodEntry host_ok 1%positive sample_world).2).2
         !! "local_1730000000000_4fzyo82mv" = Some r ∧
       id r = Some "local_1730000000000_4fzyo82mv" ∧ synced r = Some false.
Proof.
  destruct (saveFoodEntry_then_syncWithServer host_ok 1%positive apple
              sample_world "local_1730000000000_4fzyo82mv")
    as (_ & Hnone & Hstored & _); try reflexivity.
  split; [exact Hnone | exact Hstored].
Defined.

Lemma getFoodEntries_open_failure_empty_witness :
  (getFoodEntries host_no_database "u1" None None sample_world).1 = Fulfilled [].
Proof.
  apply (getFoodEntries_open_failure_empty host_no_database "u1" None None
           sample_world). reflexivity.
Defined.

Lemma getFoodEntries_read_only_witness :
  console (getFoodEntries host_read_error "u1" None None sample_world).2 = [] ∧
  foodEntries (getFoodEntries host_read_error "u1" None None sample_world).2 =
    sample_store.
Proof.
  destruct (getFoodEntries_read_only host_read_error "u1" None None sample_world)
    as (Hstore & _ & _ & _ & Hconsole).
  split; [apply Hconsole; reflexivity | exact Hstore].
Defined.

Lemma getFoodEntries_range_narrows_witness :
  ∃ l lr,
    getFoodEntries host_ok "u1" None None sample_world = (Fulfilled l, sample_world) ∧
    getFoodEntries host_ok "u1" (Some (DateAt 2000)) (Some (DateAt 1000))
      sample_world = (Fulfilled lr, sample_world) ∧
    lr = [].
Proof.
  destruct (getFoodEntries_range_narrows host_ok "u1" (DateAt 2000) (DateAt 1000)
              sample_world) as (l & lr & Hl & Hlr & _ & _ & Hempty);
    [reflexivity | reflexivity |].
  exists l, lr. split; [exact Hl|]. split; [exact Hlr|].
  apply Hempty. right. right. exists 2000, 1000. split_and!; [done | done | lia].
Defined.

Lemma onupgradeneeded_idempotent_witness :
  onupgradeneeded ∅ !! "foodEntries" = Some foodEntries_schema ∧
  dom (onupgradeneeded ∅) = {["foodEntries"]} ∪ dom (∅ : gmap string IDBObjectStore).
Proof.
  destruct (onupgradeneeded_idempotent ∅) as (_ & _ & _ & Hfresh).
  apply Hfresh. reflexivity.
Defined.
